(** * The Hangman drawing component

    A shallow embedding of [src/components/Hangman/Hangman.jsx]: the geometry
    generator [getHangmanParts], the canvas helpers [draw] and [clearCanvas],
    and the function component [Hangman] with its hooks, run by an explicit
    model of React's render / commit / effect cycle and of the browser events
    the component listens to. *)

From Stdlib Require Import ZArith List Bool Lia SpecFloat.
Import ListNotations.

Local Open Scope Z_scope.

(** ** JavaScript values *)

Module JS.

(** A JavaScript number is an IEEE 754 binary64 value: 53 bits of precision,
    infinities at exponent 1024, one NaN. The arithmetic is the standard
    library's executable specification of binary64, which rounds to nearest,
    ties to even, as JavaScript does. *)
Definition prec : Z := 53.
Definition emax : Z := 1024.

Definition number : Type := spec_float.

Definition NaN : number := S754_nan.

(** The number a whole-number literal denotes. *)
Definition lit (z : Z) : number := binary_normalize prec emax z 0 false.

Definition add : number -> number -> number := SFadd prec emax.
Definition sub : number -> number -> number := SFsub prec emax.
Definition mul : number -> number -> number := SFmul prec emax.
Definition div : number -> number -> number := SFdiv prec emax.

(** [Math.PI], the double 3.141592653589793. *)
Definition Math_PI : number := S754_finite false 7074237752028440 (-51).

(** The values the [size] state takes: [useState()] starts at [undefined],
    [setSize] stores a number. *)
Inductive value : Type :=
| undefined
| num (x : number).

(** [ToNumber]: [undefined] converts to [NaN]. *)
Definition ToNumber (v : value) : number :=
  match v with
  | undefined => NaN
  | num x => x
  end.

(** [SameValue] on numbers: [NaN] is the same as [NaN], and the two zeros
    differ. *)
Definition sameNumber (x y : number) : bool :=
  match x, y with
  | S754_zero s, S754_zero s' => Bool.eqb s s'
  | S754_infinity s, S754_infinity s' => Bool.eqb s s'
  | S754_nan, S754_nan => true
  | S754_finite s m e, S754_finite s' m' e' =>
      Bool.eqb s s' && Pos.eqb m m' && Z.eqb e e'
  | _, _ => false
  end.

(** [Object.is], the comparison React applies to state and to hook
    dependencies. *)
Definition Object_is (a b : value) : bool :=
  match a, b with
  | undefined, undefined => true
  | num x, num y => sameNumber x y
  | _, _ => false
  end.

(** The index normalisation of [Array.prototype.slice]: a negative index
    counts from the end, and the result is clamped to [0, len]. *)
Definition relativeIndex (len i : Z) : Z :=
  if i <? 0 then Z.max (len + i) 0 else Z.min i len.

(** [l.slice(start, end)]. *)
Definition slice {A : Type} (l : list A) (start end_ : Z) : list A :=
  let len := Z.of_nat (length l) in
  let k := relativeIndex len start in
  let final := relativeIndex len end_ in
  let count := Z.max (final - k) 0 in
  firstn (Z.to_nat count) (skipn (Z.to_nat k) l).

(** What [parseInt(style.width)] reads from a computed style: the whole
    pixels of a pixel length such as "350px", or [NaN] when the computed
    width is not a length ("auto", as for an element that is not
    rendered). *)
Inductive Width : Type :=
| px (z : Z)
| auto.

Definition parseInt (width : Width) : number :=
  match width with
  | px z => lit z
  | auto => NaN
  end.

End JS.

Declare Scope js_scope.
Delimit Scope js_scope with js.
Bind Scope js_scope with JS.number.
Notation "x + y" := (JS.add x y) : js_scope.
Notation "x - y" := (JS.sub x y) : js_scope.
Notation "x * y" := (JS.mul x y) : js_scope.
Notation "x / y" := (JS.div x y) : js_scope.

Coercion JS.lit : Z >-> JS.number.
Coercion JS.ToNumber : JS.value >-> JS.number.
Coercion JS.px : Z >-> JS.Width.

(** ** The 2D drawing context *)

Module Canvas.

(** The path-building calls the parts make, with their arguments. *)
Inductive PathCommand : Type :=
| MoveTo (x y : JS.number)
| LineTo (x y : JS.number)
| Arc (x y radius startAngle endAngle : JS.number) (anticlockwise : bool).

(** One [stroke()] call: the line width and the path in force. *)
Record Stroke : Type := mkStroke {
  strokeWidth : Z;
  strokePath : list PathCommand
}.

(** The context of a canvas. [surface] is what has been painted since the
    surface was last cleared, in painting order. *)
Record Context : Type := mkContext {
  lineWidth : Z;
  path : list PathCommand;
  surface : list Stroke
}.

(** A freshly created (or re-dimensioned) canvas: default line width 1,
    empty path, blank surface. *)
Definition blank : Context := mkContext 1 [] [].

Definition set_lineWidth (w : Z) (c : Context) : Context :=
  mkContext w (path c) (surface c).

Definition beginPath (c : Context) : Context :=
  mkContext (lineWidth c) [] (surface c).

Definition addToPath (p : PathCommand) (c : Context) : Context :=
  mkContext (lineWidth c) (path c ++ [p]) (surface c).

Definition moveTo (x y : JS.number) : Context -> Context :=
  addToPath (MoveTo x y).

Definition lineTo (x y : JS.number) : Context -> Context :=
  addToPath (LineTo x y).

(** A browser refuses an arc of negative radius with an exception; the
    radius here is a sixteenth of a measured width, which is not negative,
    and the call is recorded as it is made. *)
Definition arc (x y radius startAngle endAngle : JS.number)
    (anticlockwise : bool) : Context -> Context :=
  addToPath (Arc x y radius startAngle endAngle anticlockwise).

Definition stroke (c : Context) : Context :=
  mkContext (lineWidth c) (path c)
            (surface c ++ [mkStroke (lineWidth c) (path c)]).

(** [clearRect(0, 0, canvas.width, canvas.height)]: the rectangle is the
    whole bitmap, so nothing painted remains. *)
Definition clearRect_all (c : Context) : Context :=
  mkContext (lineWidth c) (path c) [].

End Canvas.

Import Canvas.

(** A drawing operation: a procedure run against a drawing context. *)
Definition DrawingOperation : Type := Context -> Context.

(** ** [getHangmanParts] *)

Section HangmanParts.

Variable size : JS.value.

Local Open Scope js_scope.

Definition bodyHeight : JS.number := size / 2.
Definition appendageWidth : JS.number := bodyHeight / 3.

Definition platform : DrawingOperation := fun canvasContext =>
  let canvasContext := set_lineWidth 10 canvasContext in
  let canvasContext := beginPath canvasContext in
  let canvasContext := moveTo 0 size canvasContext in
  let canvasContext := lineTo size size canvasContext in
  stroke canvasContext.

Definition post : DrawingOperation := fun canvasContext =>
  let canvasContext := set_lineWidth 10 canvasContext in
  let canvasContext := beginPath canvasContext in
  let canvasContext := moveTo 0 0 canvasContext in
  let canvasContext := lineTo 0 size canvasContext in
  stroke canvasContext.

Definition pole : DrawingOperation := fun canvasContext =>
  let canvasContext := set_lineWidth 10 canvasContext in
  let canvasContext := beginPath canvasContext in
  let canvasContext := moveTo 0 0 canvasContext in
  let canvasContext := lineTo (size / 2) 0 canvasContext in
  stroke canvasContext.

Definition rope : DrawingOperation := fun canvasContext =>
  let canvasContext := beginPath canvasContext in
  let canvasContext := moveTo (size / 2) 0 canvasContext in
  let canvasContext := lineTo (size / 2) (size / 10) canvasContext in
  stroke canvasContext.

Definition head : DrawingOperation := fun canvasContext =>
  let canvasContext := beginPath canvasContext in
  let canvasContext :=
    arc (size / 2) (size / 10 + size / 16) (size / 16) 0
        (JS.Math_PI * 2) true canvasContext in
  stroke canvasContext.

Definition body : DrawingOperation := fun canvasContext =>
  let canvasContext := beginPath canvasContext in
  let canvasContext := moveTo (size / 2) (size / 10 + size / 8) canvasContext in
  let canvasContext := lineTo (size / 2) (size - bodyHeight) canvasContext in
  stroke canvasContext.

Definition leftArm : DrawingOperation := fun canvasContext =>
  let canvasContext := beginPath canvasContext in
  let canvasContext := moveTo (size / 2) (size / 3) canvasContext in
  let canvasContext :=
    lineTo (size / 2 - appendageWidth) (size / 3) canvasContext in
  stroke canvasContext.

Definition rightArm : DrawingOperation := fun canvasContext =>
  let canvasContext := beginPath canvasContext in
  let canvasContext := moveTo (size / 2) (size / 3) canvasContext in
  let canvasContext :=
    lineTo (size / 2 + appendageWidth) (size / 3) canvasContext in
  stroke canvasContext.

Definition leftLeg : DrawingOperation := fun canvasContext =>
  let canvasContext := beginPath canvasContext in
  let canvasContext := moveTo (size / 2) (size - bodyHeight) canvasContext in
  let canvasContext :=
    lineTo (size / 2 - appendageWidth) (size - bodyHeight + appendageWidth)
           canvasContext in
  stroke canvasContext.

Definition rightLeg : DrawingOperation := fun canvasContext =>
  let canvasContext := beginPath canvasContext in
  let canvasContext := moveTo (size / 2) (size - bodyHeight) canvasContext in
  let canvasContext :=
    lineTo (size / 2 + appendageWidth) (size - bodyHeight + appendageWidth)
           canvasContext in
  stroke canvasContext.

Definition getHangmanParts : list DrawingOperation :=
  [platform; post; pole; rope; head; body; leftArm; rightArm; leftLeg; rightLeg].

End HangmanParts.

(** ** Canvas helpers *)

(** Helper function to prepare the canvas for drawing. *)
Definition draw (canvasContext : Context) (drawFn : DrawingOperation) : Context :=
  let canvasContext := set_lineWidth 2 canvasContext in
  drawFn canvasContext.

(** The [<canvas height={size} width={size}>] element with its 2D context. *)
Record CanvasElement : Type := mkCanvas {
  dimension : JS.value;
  getContext : Context
}.

(** Clears the canvas. *)
Definition clearCanvas (canvas : CanvasElement) : CanvasElement :=
  let context := getContext canvas in
  mkCanvas (dimension canvas) (clearRect_all context).

(** ** The component and the page around it *)

(** The life of a component instance. While [Mounted], [containerRef.current]
    and [canvasRef.current] are the rendered elements; before and after they
    are not ([null] once unmounted). *)
Inductive Phase : Type := NotMounted | Mounted | Unmounted.

Record World : Type := mkWorld {
  (** the page: the container's computed width, whether [window] holds the
      resize listener, and whether a trailing call of the debounced function
      is scheduled *)
  containerWidth : JS.Width;
  resizeListener : bool;
  debouncePending : bool;
  (** the component instance *)
  phase : Phase;
  incorrectGuessCount : Z;
  size : JS.value;
  pendingSize : option JS.value;
  hangmanParts : list DrawingOperation;
  hangmanPartsInstance : nat;
  drawnPartsRef : Z;
  previousIncorrectGuessCountRef : Z;
  canvas : CanvasElement
}.

Definition set_containerWidth (x : JS.Width) (w : World) : World :=
  mkWorld x (resizeListener w) (debouncePending w) (phase w)
    (incorrectGuessCount w) (size w) (pendingSize w) (hangmanParts w)
    (hangmanPartsInstance w) (drawnPartsRef w)
    (previousIncorrectGuessCountRef w) (canvas w).

Definition set_resizeListener (x : bool) (w : World) : World :=
  mkWorld (containerWidth w) x (debouncePending w) (phase w)
    (incorrectGuessCount w) (size w) (pendingSize w) (hangmanParts w)
    (hangmanPartsInstance w) (drawnPartsRef w)
    (previousIncorrectGuessCountRef w) (canvas w).

Definition set_debouncePending (x : bool) (w : World) : World :=
  mkWorld (containerWidth w) (resizeListener w) x (phase w)
    (incorrectGuessCount w) (size w) (pendingSize w) (hangmanParts w)
    (hangmanPartsInstance w) (drawnPartsRef w)
    (previousIncorrectGuessCountRef w) (canvas w).

Definition set_phase (x : Phase) (w : World) : World :=
  mkWorld (containerWidth w) (resizeListener w) (debouncePending w) x
    (incorrectGuessCount w) (size w) (pendingSize w) (hangmanParts w)
    (hangmanPartsInstance w) (drawnPartsRef w)
    (previousIncorrectGuessCountRef w) (canvas w).

Definition set_incorrectGuessCount (x : Z) (w : World) : World :=
  mkWorld (containerWidth w) (resizeListener w) (debouncePending w) (phase w)
    x (size w) (pendingSize w) (hangmanParts w)
    (hangmanPartsInstance w) (drawnPartsRef w)
    (previousIncorrectGuessCountRef w) (canvas w).

Definition set_size (x : JS.value) (w : World) : World :=
  mkWorld (containerWidth w) (resizeListener w) (debouncePending w) (phase w)
    (incorrectGuessCount w) x (pendingSize w) (hangmanParts w)
    (hangmanPartsInstance w) (drawnPartsRef w)
    (previousIncorrectGuessCountRef w) (canvas w).

Definition set_pendingSize (x : option JS.value) (w : World) : World :=
  mkWorld (containerWidth w) (resizeListener w) (debouncePending w) (phase w)
    (incorrectGuessCount w) (size w) x (hangmanParts w)
    (hangmanPartsInstance w) (drawnPartsRef w)
    (previousIncorrectGuessCountRef w) (canvas w).

(** Storing a newly generated sequence: a new array, hence a new instance
    number. *)
Definition set_hangmanParts (x : list DrawingOperation) (w : World) : World :=
  mkWorld (containerWidth w) (resizeListener w) (debouncePending w) (phase w)
    (incorrectGuessCount w) (size w) (pendingSize w) x
    (S (hangmanPartsInstance w)) (drawnPartsRef w)
    (previousIncorrectGuessCountRef w) (canvas w).

Definition set_drawnPartsRef (x : Z) (w : World) : World :=
  mkWorld (containerWidth w) (resizeListener w) (debouncePending w) (phase w)
    (incorrectGuessCount w) (size w) (pendingSize w) (hangmanParts w)
    (hangmanPartsInstance w) x
    (previousIncorrectGuessCountRef w) (canvas w).

Definition set_previousIncorrectGuessCountRef (x : Z) (w : World) : World :=
  mkWorld (containerWidth w) (resizeListener w) (debouncePending w) (phase w)
    (incorrectGuessCount w) (size w) (pendingSize w) (hangmanParts w)
    (hangmanPartsInstance w) (drawnPartsRef w) x (canvas w).

Definition set_canvas (x : CanvasElement) (w : World) : World :=
  mkWorld (containerWidth w) (resizeListener w) (debouncePending w) (phase w)
    (incorrectGuessCount w) (size w) (pendingSize w) (hangmanParts w)
    (hangmanPartsInstance w) (drawnPartsRef w)
    (previousIncorrectGuessCountRef w) x.

Definition isMounted (w : World) : bool :=
  match phase w with
  | Mounted => true
  | _ => false
  end.

(** What is painted on the component's canvas. *)
Definition painted (w : World) : list Stroke := surface (getContext (canvas w)).

(** A page of the given container width on which nothing is mounted. *)
Definition page (width : JS.Width) : World :=
  mkWorld width false false NotMounted 0 JS.undefined None [] 0 0 0
          (mkCanvas JS.undefined blank).

(** *** Exceptions *)

Inductive Error : Type := TypeError.

Inductive Completion (A : Type) : Type :=
| Normal (a : A)
| Throw (e : Error).
Arguments Normal {A} a.
Arguments Throw {A} e.

Definition bind {A B : Type} (c : Completion A) (k : A -> Completion B)
    : Completion B :=
  match c with
  | Normal a => k a
  | Throw e => Throw e
  end.

Notation "x <- c ;; k" := (bind c (fun x => k))
  (at level 61, c at next level, right associativity).

(** *** The body of [Hangman] *)

(** [setSize]: the update is queued and applied by React once the running
    effect or callback has returned, see [flush]. *)
Definition setSize (containerSize : JS.value) (w : World) : World :=
  set_pendingSize (Some containerSize) w.

(** Resizes the canvas based on its parent's width. Once the component is
    unmounted [containerRef.current] is [null], on which [getComputedStyle]
    throws. *)
Definition resizeCanvas (w : World) : Completion World :=
  if isMounted w then
    let containerSize := JS.num (JS.parseInt (containerWidth w)) in
    Normal (setSize containerSize w)
  else Throw TypeError.

(** Debounced version to use as a resize event listener. lodash's
    [debounce(resizeCanvas, 50)]: a call (re)starts the 50 ms timer, and
    [resizeCanvas] is invoked when the timer elapses. *)
Definition resizeCanvasDebounce (w : World) : World :=
  set_debouncePending true w.

(** Clears and resets the canvas so parts can be redrawn. *)
Definition resetCanvas (w : World) : World :=
  let w := set_canvas (clearCanvas (canvas w)) w in
  set_drawnPartsRef 0 w.

(** The draw effect, first statement: if the guess count went backward
    then reset the drawn state. *)
Definition resetIfBackward (w : World) : World :=
  if previousIncorrectGuessCountRef w >? incorrectGuessCount w
  then resetCanvas w else w.

(** The draw effect's [partsToDraw], as evaluated in the state [w] reached
    after [resetIfBackward]. *)
Definition partsToDraw (w : World) : list DrawingOperation :=
  JS.slice (hangmanParts w) (drawnPartsRef w) (incorrectGuessCount w).

(** The effect "Draw the hangman parts". [context] is the canvas's one
    context object, so it is read where it is drawn on. *)
Definition drawEffect (w : World) : World :=
  let w := resetIfBackward w in
  let w := set_previousIncorrectGuessCountRef (incorrectGuessCount w) w in
  let context := fold_left draw (partsToDraw w) (getContext (canvas w)) in
  let w := set_canvas (mkCanvas (dimension (canvas w)) context) w in
  set_drawnPartsRef (incorrectGuessCount w) w.

(** The effect "Resize the canvas when the window size changes" and its
    cleanup. *)
Definition resizeEffect (w : World) : Completion World :=
  w <- resizeCanvas w ;;
  Normal (set_resizeListener true w).

Definition resizeEffect_cleanup (w : World) : World :=
  set_resizeListener false w.

(** *** React's render and commit *)

(** A render of the mounted component with prop [n] and state [sz], and
    the commit that follows: [useMemo] regenerates the parts when [size]
    differs from the last render's; the canvas element takes its new height
    and width, which gives it a blank bitmap and a default context; then the
    effects whose dependencies changed run in the order they are declared
    (the dependencies of the resize effect never change). *)
Definition render (n : Z) (sz : JS.value) (w : World) : World :=
  let sizeChanged := negb (JS.Object_is sz (size w)) in
  let countChanged := negb (n =? incorrectGuessCount w) in
  let w := set_incorrectGuessCount n (set_size sz w) in
  let w := if sizeChanged then set_hangmanParts (getHangmanParts sz) w else w in
  let w := if sizeChanged then set_canvas (mkCanvas sz blank) w else w in
  let w := if sizeChanged then resetCanvas w else w in
  if sizeChanged || countChanged then drawEffect w else w.

(** React applies a queued [setSize]: no render when the value is the
    current state. *)
Definition flush (w : World) : World :=
  match pendingSize w with
  | None => w
  | Some sz =>
      let w := set_pendingSize None w in
      if JS.Object_is sz (size w) then w
      else render (incorrectGuessCount w) sz w
  end.

(** The first render of [<Hangman incorrectGuessCount={n} />] initialises
    the hooks ([drawnPartsRef] 0, [previousIncorrectGuessCountRef] [n], [size]
    undefined, the parts generated from it), and its commit creates the
    elements. *)
Definition firstRender (n : Z) (w : World) : World :=
  let w := set_drawnPartsRef 0 w in
  let w := set_previousIncorrectGuessCountRef n w in
  let w := set_size JS.undefined (set_pendingSize None w) in
  let w := set_incorrectGuessCount n w in
  let w := set_hangmanParts (getHangmanParts JS.undefined) w in
  set_canvas (mkCanvas JS.undefined blank) (set_phase Mounted w).

(** Mounting: after the first render all three effects run, in the order
    they are declared, and the [setSize] queued by the first is applied. *)
Definition mount (n : Z) (w : World) : Completion World :=
  w <- resizeEffect (firstRender n w) ;;
  let w := resetCanvas w in
  let w := drawEffect w in
  Normal (flush w).

(** Unmounting runs the cleanup of the resize effect (the other effects
    return none) and detaches the refs. *)
Definition unmount (w : World) : World :=
  let w := resizeEffect_cleanup w in
  set_phase Unmounted w.

(** *** Events *)

Inductive Event : Type :=
| Mount (n : Z)          (** the parent renders [<Hangman incorrectGuessCount={n} />] *)
| Update (n : Z)         (** the parent re-renders it with this prop *)
| WindowResize (width : JS.Width) (** the window is resized: the container
                               now has this computed width, and [resize] is
                               dispatched *)
| DebounceElapsed        (** 50 ms have passed since the last debounced call *)
| Unmount.

Definition step (w : World) (e : Event) : Completion World :=
  match e with
  | Mount n =>
      match phase w with
      | NotMounted => mount n w
      | _ => Normal w
      end
  | Update n => Normal (if isMounted w then render n (size w) w else w)
  | WindowResize width =>
      let w := set_containerWidth width w in
      Normal (if resizeListener w then resizeCanvasDebounce w else w)
  | DebounceElapsed =>
      if debouncePending w then
        w <- resizeCanvas (set_debouncePending false w) ;;
        Normal (flush w)
      else Normal w
  | Unmount => Normal (if isMounted w then unmount w else w)
  end.

Fixpoint run (w : World) (events : list Event) : Completion World :=
  match events with
  | [] => Normal w
  | e :: events => w <- step w e ;; run w events
  end.

(** The state in which the draw effect starts when the size has changed:
    new parts, a blank canvas of the new dimension, a drawn count of 0. *)
Definition resized (n : Z) (sz : JS.value) (w : World) : World :=
  resetCanvas
    (set_canvas (mkCanvas sz blank)
       (set_hangmanParts (getHangmanParts sz)
          (set_incorrectGuessCount n (set_size sz w)))).

(** ** Vocabulary of the statements *)

(** The elements of [l] at the indices [lo, hi). *)
Definition indexRange {A : Type} (l : list A) (lo hi : Z) : list A :=
  skipn (Z.to_nat lo) (firstn (Z.to_nat hi) l).

(** What an operation paints when [draw] runs it on a blank canvas, that
    is on a context whose line width has just been reset to 2. *)
Definition strokeOf (f : DrawingOperation) : list Stroke :=
  surface (draw blank f).

(** What a sequence of operations paints, each run so, in order. *)
Definition paints (fs : list DrawingOperation) : list Stroke :=
  flat_map strokeOf fs.

(** The state of a mounted component between two events: the resize
    listener is registered, no state update is queued, the parts are those
    generated from [size], the canvas has that dimension, and both refs hold
    the guess count of the last render. *)
Record Idle (w : World) : Prop := mkIdle {
  idle_mounted : isMounted w = true;
  idle_listener : resizeListener w = true;
  idle_flushed : pendingSize w = None;
  idle_parts : hangmanParts w = getHangmanParts (size w);
  idle_canvas : dimension (canvas w) = size w;
  idle_drawn : drawnPartsRef w = incorrectGuessCount w;
  idle_previous : previousIncorrectGuessCountRef w = incorrectGuessCount w
}.

(** The surface shows the first [incorrectGuessCount] parts (all of them
    when the count exceeds their number), painted in order. *)
Definition Shown (w : World) : Prop :=
  painted w =
    paints (firstn (Z.to_nat (incorrectGuessCount w)) (hangmanParts w)).

(** The guess counts an event carries are not negative. *)
Definition nonNegativeCount (e : Event) : Prop :=
  match e with
  | Mount n | Update n => 0 <= n
  | _ => True
  end.

(** The guess count of the most recent render among [events], [n] if there
    is none. *)
Definition lastGuessCount (n : Z) (events : list Event) : Z :=
  fold_left (fun n e => match e with Update m => m | _ => n end) events n.

(** The world a run ends in; for a run that threw, the empty page. *)
Definition worldOf (c : Completion World) : World :=
  match c with
  | Normal w => w
  | Throw _ => page 0
  end.

(** The component mounted with guess count [n] in a container 350 pixels
    wide, the width the stories give it. *)
Definition mounted350 (n : Z) : World := worldOf (run (page 350) [Mount n]).

(** [n] clamped to [lo, hi]. *)
Definition clamp (lo hi n : Z) : Z := Z.min hi (Z.max lo n).

(** *** Geometry of a part *)

(** What each of the ten parts is to paint at a given size, written out as
    data: the frame 10 wide, the rest 2 wide, with the coordinates in
    JavaScript's arithmetic. *)
Definition partStrokes (size : JS.value) : list Stroke :=
  let s : JS.number := size in
  [ mkStroke 10 [MoveTo 0 s; LineTo s s];
    mkStroke 10 [MoveTo 0 0; LineTo 0 s];
    mkStroke 10 [MoveTo 0 0; LineTo (s / 2) 0];
    mkStroke 2 [MoveTo (s / 2) 0; LineTo (s / 2) (s / 10)];
    mkStroke 2 [Arc (s / 2) (s / 10 + s / 16) (s / 16) 0 (JS.Math_PI * 2) true];
    mkStroke 2 [MoveTo (s / 2) (s / 10 + s / 8); LineTo (s / 2) (s - s / 2)];
    mkStroke 2 [MoveTo (s / 2) (s / 3); LineTo (s / 2 - s / 2 / 3) (s / 3)];
    mkStroke 2 [MoveTo (s / 2) (s / 3); LineTo (s / 2 + s / 2 / 3) (s / 3)];
    mkStroke 2 [MoveTo (s / 2) (s - s / 2);
                LineTo (s / 2 - s / 2 / 3) (s - s / 2 + s / 2 / 3)];
    mkStroke 2 [MoveTo (s / 2) (s - s / 2);
                LineTo (s / 2 + s / 2 / 3) (s - s / 2 + s / 2 / 3)] ]%js.

(** The part strokes the single segment from [(x0, y0)] to [(x1, y1)]. *)
Definition isSegment (f : DrawingOperation) (x0 y0 x1 y1 : JS.number) : Prop :=
  exists width, strokeOf f = [mkStroke width [MoveTo x0 y0; LineTo x1 y1]].



(** The whole pixel sizes from 0 to 4096. *)
Definition pixelSizes : list Z := map Z.of_nat (seq 0 4097).



(** *** Where a part draws *)

Definition isNaN (x : JS.number) : bool :=
  match x with
  | S754_nan => true
  | _ => false
  end.

(** A path command one of whose coordinates is [NaN]. *)
Definition hasNaN (p : PathCommand) : bool :=
  match p with
  | MoveTo x y | LineTo x y => isNaN x || isNaN y
  | Arc x y r _ _ _ => isNaN x || isNaN y || isNaN r
  end.

(** The commands that extend a path ([moveTo] only places the pen). *)
Definition extendsPath (p : PathCommand) : bool :=
  match p with
  | MoveTo _ _ => false
  | _ => true
  end.

(** ** The story [HangmanCycle] *)

(** lodash's [range(start, end)]: from [start] up to, not including, [end]
    in steps of 1, or down in steps of -1 when [end] is below [start]. *)
Definition range (start end_ : Z) : list Z :=
  if start <=? end_
  then map (fun i => start + Z.of_nat i) (seq 0 (Z.to_nat (end_ - start)))
  else map (fun i => start - Z.of_nat i) (seq 0 (Z.to_nat (start - end_))).

(** [l[i]]: [undefined] ([None]) outside the array. *)
Definition arrayGet {A : Type} (l : list A) (i : Z) : option A :=
  if i <? 0 then None else nth_error l (Z.to_nat i).

Definition guessCounts : list Z := range 0 11.

(** The state update of the timeout callback. *)
Definition nextGuessCountIndex (currentGuessCountIndex : Z) : Z :=
  let nextIndex := currentGuessCountIndex + 1 in
  if nextIndex >? Z.of_nat (length guessCounts) - 1 then 0 else nextIndex.

(** The prop [HangmanCycle] passes to [Hangman] at a given index;
    [Hangman]'s parameter default makes an undefined prop 0. *)
Definition cycleGuessCount (currentGuessCountIndex : Z) : Z :=
  match arrayGet guessCounts currentGuessCountIndex with
  | Some incorrectGuessCount => incorrectGuessCount
  | None => 0
  end.

(** [HangmanCycle] and the [Hangman] it renders in a [HangmanContainer],
    which is 350 pixels wide. *)
Record Cycle : Type := mkCycle {
  currentGuessCountIndex : Z;
  hangman : World
}.

Definition mountCycle : Completion Cycle :=
  w <- step (page 350) (Mount (cycleGuessCount 0)) ;;
  Normal (mkCycle 0 w).

(** The 500 ms timeout fires: the index advances and the component
    re-renders its [Hangman] with the guess count at the new index. *)
Definition tick (c : Cycle) : Completion Cycle :=
  let index := nextGuessCountIndex (currentGuessCountIndex c) in
  w <- step (hangman c) (Update (cycleGuessCount index)) ;;
  Normal (mkCycle index w).

Fixpoint ticks (k : nat) (c : Cycle) : Completion Cycle :=
  match k with
  | O => Normal c
  | S k => c <- tick c ;; ticks k c
  end.

(** * Properties *)

(** ** [Array.prototype.slice] *)

Section Slice.

Context {A : Type}.
Implicit Types l : list A.

Lemma slice_indexRange l (a b : Z) :
  0 <= a -> 0 <= b -> JS.slice l a b = indexRange l a b.
Proof.
  intros Ha Hb. unfold JS.slice, indexRange, JS.relativeIndex.
  destruct (Z.ltb_spec a 0) as [|_]; [lia|].
  destruct (Z.ltb_spec b 0) as [|_]; [lia|].
  rewrite skipn_firstn_comm.
  set (len := length l).
  destruct (Z.le_gt_cases (Z.of_nat len) a) as [Hlen|Hlen].
  - rewrite (skipn_all2 (n := Z.to_nat (Z.min a (Z.of_nat len)))) by (fold len; lia).
    rewrite (skipn_all2 (n := Z.to_nat a)) by (fold len; lia).
    now rewrite !firstn_nil.
  - replace (Z.min a (Z.of_nat len)) with a by lia.
    destruct (Z.le_gt_cases (Z.of_nat len) b) as [Hb'|Hb'].
    + rewrite !firstn_all2; trivial; rewrite length_skipn; fold len; lia.
    + f_equal. lia.
Qed.

Lemma slice_firstn l (n : Z) :
  0 <= n -> JS.slice l 0 n = firstn (Z.to_nat n) l.
Proof.
  intros Hn. rewrite slice_indexRange by lia. reflexivity.
Qed.

(** A negative end index counts from the end of the list. *)
Lemma slice_negative_end l (n : Z) :
  - Z.of_nat (length l) < n < 0 ->
  JS.slice l 0 n = firstn (Z.to_nat (Z.of_nat (length l) + n)) l.
Proof.
  intros Hn. unfold JS.slice, JS.relativeIndex.
  destruct (Z.ltb_spec n 0) as [_|]; [|lia].
  cbn [Z.ltb Z.compare]. cbn [skipn Z.to_nat Z.min].
  replace (Z.min 0 (Z.of_nat (length l))) with 0 by lia.
  cbn [Z.to_nat skipn]. f_equal. lia.
Qed.

Lemma slice_empty l (n : Z) : JS.slice l n n = [].
Proof.
  unfold JS.slice. now rewrite Z.sub_diag.
Qed.

Lemma slice_incl l (a b : Z) : incl (JS.slice l a b) l.
Proof.
  intros x Hx. unfold JS.slice in Hx. cbv zeta in Hx.
  match type of Hx with
  | In _ (firstn ?c (skipn ?k _)) =>
      rewrite <- (firstn_skipn k l); apply in_or_app; right;
      rewrite <- (firstn_skipn c (skipn k l)); apply in_or_app; now left
  end.
Qed.

Lemma indexRange_nth_error l (lo hi : Z) (i : nat) :
  0 <= lo ->
  nth_error (indexRange l lo hi) i =
    if Z.of_nat i + lo <? hi then nth_error l (i + Z.to_nat lo) else None.
Proof.
  intros Hlo. unfold indexRange.
  rewrite nth_error_skipn.
  destruct (Z.ltb_spec (Z.of_nat i + lo) hi) as [H|H].
  - rewrite nth_error_firstn.
    replace (Z.to_nat lo + i)%nat with (i + Z.to_nat lo)%nat by lia.
    destruct (Nat.ltb_spec (i + Z.to_nat lo) (Z.to_nat hi)); [reflexivity|lia].
  - rewrite nth_error_firstn.
    destruct (Nat.ltb_spec (Z.to_nat lo + i) (Z.to_nat hi)); [lia|reflexivity].
Qed.

End Slice.

(** ** Drawing one part, drawing several *)

Ltac fields :=
  cbn [containerWidth resizeListener debouncePending phase incorrectGuessCount
       size pendingSize hangmanParts hangmanPartsInstance drawnPartsRef
       previousIncorrectGuessCountRef canvas
       set_containerWidth set_resizeListener set_debouncePending set_phase
       set_incorrectGuessCount set_size set_pendingSize set_hangmanParts
       set_drawnPartsRef set_previousIncorrectGuessCountRef set_canvas
       dimension getContext lineWidth path surface
       resetCanvas clearCanvas clearRect_all isMounted setSize
       resizeCanvasDebounce resizeEffect_cleanup unmount] in *.

(** Run by [draw], a part appends its own stroke to the surface and leaves
    a context that owes nothing else to the one it was given. *)
Lemma draw_part (s : JS.value) (f : DrawingOperation) (c : Context) :
  In f (getHangmanParts s) ->
  draw c f =
    mkContext (lineWidth (draw blank f)) (path (draw blank f))
              (surface c ++ strokeOf f).
Proof.
  intros Hf. unfold getHangmanParts in Hf. cbn [In] in Hf.
  repeat (destruct Hf as [<-|Hf]; [reflexivity|]).
  contradiction.
Qed.

Lemma fold_draw_surface (s : JS.value) (fs : list DrawingOperation) :
  incl fs (getHangmanParts s) ->
  forall c, surface (fold_left draw fs c) = surface c ++ paints fs.
Proof.
  induction fs as [|f fs IH]; intros Hfs c; cbn [fold_left paints flat_map].
  - now rewrite app_nil_r.
  - rewrite IH by (intros g Hg; apply Hfs; now right).
    rewrite (draw_part s) by (apply Hfs; now left).
    cbn [surface]. now rewrite <- app_assoc.
Qed.

Lemma paints_app (fs gs : list DrawingOperation) :
  paints (fs ++ gs) = paints fs ++ paints gs.
Proof. apply flat_map_app. Qed.

Lemma paints_firstn_indexRange (l : list DrawingOperation) (d n : Z) :
  0 <= d <= n ->
  paints (firstn (Z.to_nat d) l) ++ paints (indexRange l d n) =
  paints (firstn (Z.to_nat n) l).
Proof.
  intros Hdn. rewrite <- paints_app. f_equal. unfold indexRange.
  replace (firstn (Z.to_nat d) l)
    with (firstn (Z.to_nat d) (firstn (Z.to_nat n) l)).
  - apply firstn_skipn.
  - rewrite firstn_firstn. f_equal. lia.
Qed.

Lemma strokeOf_part (s : JS.value) (f : DrawingOperation) :
  In f (getHangmanParts s) -> exists st, strokeOf f = [st].
Proof.
  intros Hf. unfold getHangmanParts in Hf. cbn [In] in Hf.
  repeat (destruct Hf as [<-|Hf]; [eexists; reflexivity|]).
  contradiction.
Qed.

Lemma paints_length (s : JS.value) (fs : list DrawingOperation) :
  incl fs (getHangmanParts s) -> length (paints fs) = length fs.
Proof.
  induction fs as [|f fs IH]; intros Hfs; [reflexivity|].
  destruct (strokeOf_part s f) as (st & Hst); [apply Hfs; now left|].
  cbn [paints flat_map length]. rewrite Hst. cbn [app length]. f_equal.
  apply IH. intros g Hg. apply Hfs. now right.
Qed.

Lemma incl_firstn {A : Type} (k : nat) (l : list A) : incl (firstn k l) l.
Proof.
  intros x Hx. rewrite <- (firstn_skipn k l). apply in_or_app. now left.
Qed.

Lemma incl_skipn {A : Type} (k : nat) (l : list A) : incl (skipn k l) l.
Proof.
  intros x Hx. rewrite <- (firstn_skipn k l). apply in_or_app. now right.
Qed.

(** Each part paints one stroke, so what the first parts of a list paint are
    the first strokes of what the list paints, and likewise for the rest. *)
Lemma paints_firstn (s : JS.value) (k : nat) (fs : list DrawingOperation) :
  incl fs (getHangmanParts s) -> paints (firstn k fs) = firstn k (paints fs).
Proof.
  revert k. induction fs as [|f fs IH]; intros k Hfs.
  - now rewrite !firstn_nil.
  - destruct k as [|k]; [reflexivity|].
    destruct (strokeOf_part s f) as (st & Hst); [apply Hfs; now left|].
    cbn [firstn paints flat_map]. rewrite Hst. cbn [app firstn]. f_equal.
    apply IH. intros g Hg. apply Hfs. now right.
Qed.

Lemma paints_skipn (s : JS.value) (k : nat) (fs : list DrawingOperation) :
  incl fs (getHangmanParts s) -> paints (skipn k fs) = skipn k (paints fs).
Proof.
  revert k. induction fs as [|f fs IH]; intros k Hfs.
  - now rewrite !skipn_nil.
  - destruct k as [|k]; [reflexivity|].
    destruct (strokeOf_part s f) as (st & Hst); [apply Hfs; now left|].
    cbn [skipn paints flat_map]. rewrite Hst. cbn [app skipn].
    apply IH. intros g Hg. apply Hfs. now right.
Qed.

(** Run through [draw], the ten parts paint the ten strokes of
    [partStrokes]. *)
Lemma paints_getHangmanParts (s : JS.value) :
  paints (getHangmanParts s) = partStrokes s.
Proof. reflexivity. Qed.

Lemma paints_firstn_parts (s : JS.value) (k : nat) :
  paints (firstn k (getHangmanParts s)) = firstn k (partStrokes s).
Proof.
  rewrite (paints_firstn s) by apply incl_refl.
  now rewrite paints_getHangmanParts.
Qed.

Lemma paints_indexRange_parts (s : JS.value) (lo hi : Z) :
  paints (indexRange (getHangmanParts s) lo hi) =
  indexRange (partStrokes s) lo hi.
Proof.
  unfold indexRange.
  rewrite (paints_skipn s), paints_firstn_parts; trivial.
  apply incl_firstn.
Qed.

Lemma paints_slice_parts (s : JS.value) (start end_ : Z) :
  paints (JS.slice (getHangmanParts s) start end_) =
  JS.slice (partStrokes s) start end_.
Proof.
  unfold JS.slice. cbv zeta.
  change (length (partStrokes s)) with (length (getHangmanParts s)).
  rewrite (paints_firstn s).
  - rewrite (paints_skipn s) by apply incl_refl.
    now rewrite paints_getHangmanParts.
  - apply incl_skipn.
Qed.

(** ** The draw effect *)

Section DrawEffect.

Variable w : World.

Lemma resetIfBackward_cases :
  (previousIncorrectGuessCountRef w > incorrectGuessCount w /\
   resetIfBackward w = resetCanvas w) \/
  (previousIncorrectGuessCountRef w <= incorrectGuessCount w /\
   resetIfBackward w = w).
Proof.
  unfold resetIfBackward.
  destruct (Z.gtb_spec (previousIncorrectGuessCountRef w) (incorrectGuessCount w));
    [left|right]; split; trivial; lia.
Qed.

Lemma resetIfBackward_hangmanParts :
  hangmanParts (resetIfBackward w) = hangmanParts w.
Proof. unfold resetIfBackward. now destruct (_ >? _). Qed.

Lemma resetIfBackward_incorrectGuessCount :
  incorrectGuessCount (resetIfBackward w) = incorrectGuessCount w.
Proof. unfold resetIfBackward. now destruct (_ >? _). Qed.

Lemma partsToDraw_incl :
  incl (partsToDraw (resetIfBackward w)) (hangmanParts w).
Proof.
  unfold partsToDraw. rewrite resetIfBackward_hangmanParts. apply slice_incl.
Qed.

Lemma drawEffect_painted (s : JS.value) :
  hangmanParts w = getHangmanParts s ->
  painted (drawEffect w) =
    painted (resetIfBackward w) ++ paints (partsToDraw (resetIfBackward w)).
Proof.
  intros Hparts. unfold drawEffect, painted. fields.
  apply (fold_draw_surface s). rewrite <- Hparts. apply partsToDraw_incl.
Qed.

Lemma drawEffect_drawnPartsRef :
  drawnPartsRef (drawEffect w) = incorrectGuessCount w.
Proof.
  unfold drawEffect. fields. apply resetIfBackward_incorrectGuessCount.
Qed.

Lemma drawEffect_previousIncorrectGuessCountRef :
  previousIncorrectGuessCountRef (drawEffect w) = incorrectGuessCount w.
Proof.
  unfold drawEffect. fields. apply resetIfBackward_incorrectGuessCount.
Qed.

(** What the effect leaves alone. *)
Lemma drawEffect_frame :
  incorrectGuessCount (drawEffect w) = incorrectGuessCount w /\
  size (drawEffect w) = size w /\
  hangmanParts (drawEffect w) = hangmanParts w /\
  hangmanPartsInstance (drawEffect w) = hangmanPartsInstance w /\
  dimension (canvas (drawEffect w)) = dimension (canvas w) /\
  phase (drawEffect w) = phase w /\
  pendingSize (drawEffect w) = pendingSize w /\
  resizeListener (drawEffect w) = resizeListener w /\
  debouncePending (drawEffect w) = debouncePending w /\
  containerWidth (drawEffect w) = containerWidth w.
Proof.
  unfold drawEffect, resetIfBackward.
  destruct (_ >? _); fields; repeat split; reflexivity.
Qed.

(** With nothing to reset and non-negative bounds, the effect paints the
    parts at the indices from [drawnPartsRef] up to the guess count. *)
Lemma partsToDraw_forward :
  previousIncorrectGuessCountRef w <= incorrectGuessCount w ->
  0 <= drawnPartsRef w -> 0 <= incorrectGuessCount w ->
  partsToDraw (resetIfBackward w) =
    indexRange (hangmanParts w) (drawnPartsRef w) (incorrectGuessCount w).
Proof.
  intros Hprev Hd Hn.
  destruct resetIfBackward_cases as [[H _]|[_ ->]]; [lia|].
  now apply slice_indexRange.
Qed.

(** After a reset, or from a drawn count of 0, it paints a slice that
    starts at index 0. *)
Lemma partsToDraw_from_zero :
  drawnPartsRef (resetIfBackward w) = 0 ->
  partsToDraw (resetIfBackward w) =
    JS.slice (hangmanParts w) 0 (incorrectGuessCount w).
Proof.
  intros Hd. unfold partsToDraw.
  now rewrite Hd, resetIfBackward_hangmanParts, resetIfBackward_incorrectGuessCount.
Qed.

End DrawEffect.

Lemma resetCanvas_painted (w : World) : painted (resetCanvas w) = [].
Proof. reflexivity. Qed.

Lemma resetCanvas_drawnPartsRef (w : World) : drawnPartsRef (resetCanvas w) = 0.
Proof. reflexivity. Qed.

(** ** Render and commit *)

Lemma sameNumber_refl (x : JS.number) : JS.sameNumber x x = true.
Proof.
  destruct x as [sign|sign| |sign m e]; cbn [JS.sameNumber]; trivial.
  - apply eqb_reflx.
  - apply eqb_reflx.
  - now rewrite eqb_reflx, Pos.eqb_refl, Z.eqb_refl.
Qed.

Lemma Object_is_refl (v : JS.value) : JS.Object_is v v = true.
Proof.
  destruct v as [|x]; [reflexivity|]. apply sameNumber_refl.
Qed.

(** A render with the size unchanged runs the draw effect alone, and only
    when the guess count differs from the last render's. *)
Lemma render_same_size (w : World) (n : Z) :
  render n (size w) w =
    if n =? incorrectGuessCount w then w
    else drawEffect (set_incorrectGuessCount n w).
Proof.
  unfold render. rewrite Object_is_refl.
  destruct (Z.eqb_spec n (incorrectGuessCount w)) as [->|Hne];
    cbn [negb orb]; destruct w; reflexivity.
Qed.

Lemma render_resized (w : World) (n : Z) (sz : JS.value) :
  JS.Object_is sz (size w) = false ->
  render n sz w = drawEffect (resized n sz w).
Proof.
  intros Hsz. unfold render. now rewrite Hsz.
Qed.

Lemma Idle_drawEffect (w : World) :
  isMounted w = true -> resizeListener w = true -> pendingSize w = None ->
  hangmanParts w = getHangmanParts (size w) ->
  dimension (canvas w) = size w ->
  Idle (drawEffect w).
Proof.
  intros Hm Hl Hp Hparts Hdim.
  destruct (drawEffect_frame w) as (Hn & Hs & Hh & _ & Hd & Hph & Hpe & Hl' & _).
  constructor.
  - unfold isMounted in *. now rewrite Hph.
  - congruence.
  - congruence.
  - congruence.
  - congruence.
  - rewrite Hn. apply drawEffect_drawnPartsRef.
  - rewrite Hn. apply drawEffect_previousIncorrectGuessCountRef.
Qed.

Lemma Idle_render_same_size (w : World) (n : Z) :
  Idle w -> Idle (render n (size w) w).
Proof.
  intros [Hm Hl Hp Hparts Hdim Hd Hprev]. rewrite render_same_size.
  destruct (n =? incorrectGuessCount w); [now constructor|].
  now apply Idle_drawEffect.
Qed.

Lemma Idle_render_resized (w : World) (n : Z) (sz : JS.value) :
  isMounted w = true -> resizeListener w = true -> pendingSize w = None ->
  JS.Object_is sz (size w) = false ->
  Idle (render n sz w).
Proof.
  intros Hm Hl Hp Hsz. rewrite render_resized by trivial.
  apply Idle_drawEffect; trivial.
Qed.

(** What a render with a changed size paints: the canvas starts blank, and
    the draw effect paints a slice that starts at index 0. *)
Lemma render_resized_painted (w : World) (n : Z) (sz : JS.value) :
  JS.Object_is sz (size w) = false ->
  painted (render n sz w) = paints (JS.slice (getHangmanParts sz) 0 n).
Proof.
  intros Hsz. rewrite render_resized by trivial.
  rewrite (drawEffect_painted _ sz) by reflexivity.
  rewrite partsToDraw_from_zero.
  - unfold resetIfBackward. now destruct (_ >? _).
  - unfold resetIfBackward. now destruct (_ >? _).
Qed.

(** *** Mounting *)

Lemma resizeCanvas_mounted (w : World) :
  isMounted w = true ->
  resizeCanvas w = Normal (setSize (JS.num (JS.parseInt (containerWidth w))) w).
Proof.
  intros Hm. unfold resizeCanvas. now rewrite Hm.
Qed.

Lemma mount_eq (n : Z) (w0 : World) :
  mount n w0 =
    Normal (flush (drawEffect (resetCanvas (set_resizeListener true
      (setSize (JS.num (JS.parseInt (containerWidth w0))) (firstRender n w0)))))).
Proof.
  unfold mount, resizeEffect.
  rewrite resizeCanvas_mounted by reflexivity. reflexivity.
Qed.

Lemma mount_spec (w0 : World) (n : Z) :
  phase w0 = NotMounted ->
  exists w,
    step w0 (Mount n) = Normal w /\ Idle w /\
    size w = JS.num (JS.parseInt (containerWidth w0)) /\
    incorrectGuessCount w = n /\
    painted w = paints (JS.slice (getHangmanParts (size w)) 0 n) /\
    resizeListener w = true /\
    debouncePending w = debouncePending w0 /\
    containerWidth w = containerWidth w0.
Proof.
  intros Hphase. cbn [step]. rewrite Hphase, mount_eq.
  set (sz := JS.num (JS.parseInt (containerWidth w0))).
  set (w := resetCanvas _).
  assert (Hw : incorrectGuessCount w = n /\ size w = JS.undefined /\
               phase w = Mounted /\ pendingSize w = Some sz /\
               resizeListener w = true /\
               debouncePending w = debouncePending w0 /\
               containerWidth w = containerWidth w0)
    by (repeat split).
  clearbody w. destruct Hw as (Hn & Hs & Hph & Hpe & Hl & Hdb & Hcw).
  destruct (drawEffect_frame w)
    as (Hn1 & Hs1 & _ & _ & _ & Hph1 & Hpe1 & Hl1 & Hdb1 & Hcw1).
  set (w1 := drawEffect w) in *. clearbody w1.
  rewrite Hn in Hn1. rewrite Hs in Hs1. rewrite Hph in Hph1.
  rewrite Hpe in Hpe1. rewrite Hl in Hl1. rewrite Hdb in Hdb1.
  rewrite Hcw in Hcw1. clear w Hn Hs Hph Hpe Hl Hdb Hcw.
  unfold flush. rewrite Hpe1.
  set (w2 := set_pendingSize None w1).
  assert (Hw2 : incorrectGuessCount w2 = n /\ size w2 = JS.undefined /\
                isMounted w2 = true /\ pendingSize w2 = None /\
                resizeListener w2 = true /\
                debouncePending w2 = debouncePending w0 /\
                containerWidth w2 = containerWidth w0).
  { unfold isMounted. subst w2. cbn [set_pendingSize incorrectGuessCount size
      phase pendingSize resizeListener debouncePending containerWidth].
    rewrite Hph1. now repeat split. }
  clearbody w2. destruct Hw2 as (Hn & Hs & Hm & Hpe & Hl & Hdb & Hcw).
  clear w1 Hn1 Hs1 Hph1 Hpe1 Hl1 Hdb1 Hcw1.
  assert (Hsz : JS.Object_is sz (size w2) = false) by now rewrite Hs.
  rewrite Hsz, Hn. eexists. split; [reflexivity|].
  split; [now apply Idle_render_resized|].
  split; [|split; [|split]].
  - rewrite render_resized by trivial.
    now destruct (drawEffect_frame (resized n sz w2)) as (_ & -> & _).
  - rewrite render_resized by trivial.
    now destruct (drawEffect_frame (resized n sz w2)) as (-> & _).
  - replace (size (render n sz w2)) with sz.
    + now apply render_resized_painted.
    + rewrite render_resized by trivial.
      now destruct (drawEffect_frame (resized n sz w2)) as (_ & -> & _).
  - rewrite render_resized by trivial.
    destruct (drawEffect_frame (resized n sz w2))
      as (_ & _ & _ & _ & _ & _ & _ & -> & -> & ->).
    unfold resized. cbn [resetCanvas set_canvas set_drawnPartsRef
      set_hangmanParts set_incorrectGuessCount set_size resizeListener
      debouncePending containerWidth].
    now repeat split.
Qed.

(** *** What a render leaves in the hooks *)

Lemma render_same_size_frame (w : World) (n : Z) :
  let w' := render n (size w) w in
  incorrectGuessCount w' = n /\ size w' = size w /\
  hangmanParts w' = hangmanParts w /\
  hangmanPartsInstance w' = hangmanPartsInstance w /\
  phase w' = phase w /\ resizeListener w' = resizeListener w /\
  debouncePending w' = debouncePending w /\
  containerWidth w' = containerWidth w.
Proof.
  cbv zeta. rewrite render_same_size.
  destruct (Z.eqb_spec n (incorrectGuessCount w)) as [->|_].
  - now repeat split.
  - destruct (drawEffect_frame (set_incorrectGuessCount n w))
      as (-> & -> & -> & -> & _ & -> & _ & -> & -> & ->).
    now repeat split.
Qed.

Lemma render_resized_frame (w : World) (n : Z) (sz : JS.value) :
  JS.Object_is sz (size w) = false ->
  let w' := render n sz w in
  incorrectGuessCount w' = n /\ size w' = sz /\
  hangmanParts w' = getHangmanParts sz /\
  hangmanPartsInstance w' = S (hangmanPartsInstance w) /\
  phase w' = phase w /\ resizeListener w' = resizeListener w /\
  debouncePending w' = debouncePending w /\
  containerWidth w' = containerWidth w.
Proof.
  intros Hsz. cbv zeta. rewrite render_resized by trivial.
  destruct (drawEffect_frame (resized n sz w))
    as (-> & -> & -> & -> & _ & -> & _ & -> & -> & ->).
  now repeat split.
Qed.

(** *** The surface after a render *)

Lemma Shown_drawEffect (w : World) (s : JS.value) :
  hangmanParts w = getHangmanParts s ->
  0 <= incorrectGuessCount w ->
  0 <= drawnPartsRef w <= previousIncorrectGuessCountRef w ->
  painted w = paints (firstn (Z.to_nat (drawnPartsRef w)) (hangmanParts w)) ->
  Shown (drawEffect w).
Proof.
  intros Hparts Hn Hd Hpainted. unfold Shown.
  rewrite (drawEffect_painted w s) by trivial.
  destruct (drawEffect_frame w) as (-> & _ & -> & _).
  destruct (resetIfBackward_cases w) as [[Hgt Hreset]|[Hle Hsame]].
  - rewrite partsToDraw_from_zero by now rewrite Hreset.
    rewrite Hreset, resetCanvas_painted, slice_firstn by trivial.
    reflexivity.
  - rewrite partsToDraw_forward by lia.
    rewrite Hsame, Hpainted. apply paints_firstn_indexRange. lia.
Qed.

Lemma Shown_render_same_size (w : World) (n : Z) :
  Idle w -> Shown w -> 0 <= incorrectGuessCount w -> 0 <= n ->
  Shown (render n (size w) w).
Proof.
  intros [Hm Hl Hp Hparts Hdim Hd Hprev] Hshown Hc Hn. rewrite render_same_size.
  destruct (Z.eqb_spec n (incorrectGuessCount w)) as [->|_]; trivial.
  apply (Shown_drawEffect _ (size w)).
  - exact Hparts.
  - exact Hn.
  - change (0 <= drawnPartsRef w <= previousIncorrectGuessCountRef w). lia.
  - change (painted w =
            paints (firstn (Z.to_nat (drawnPartsRef w)) (hangmanParts w))).
    now rewrite Hd.
Qed.

Lemma Shown_render_resized (w : World) (n : Z) (sz : JS.value) :
  JS.Object_is sz (size w) = false -> 0 <= n ->
  Shown (render n sz w).
Proof.
  intros Hsz Hn. unfold Shown.
  destruct (render_resized_frame w n sz Hsz) as (-> & _ & -> & _).
  rewrite render_resized_painted, slice_firstn by trivial. reflexivity.
Qed.

(** *** One event *)

Lemma set_pendingSize_None (w : World) :
  pendingSize w = None -> set_pendingSize None w = w.
Proof.
  destruct w. cbn [pendingSize]. now intros ->.
Qed.

Lemma flush_setSize (w : World) (sz : JS.value) :
  pendingSize w = None ->
  flush (setSize sz w) =
    if JS.Object_is sz (size w) then w
    else render (incorrectGuessCount w) sz w.
Proof.
  intros Hp. unfold flush, setSize. cbn [pendingSize set_pendingSize].
  replace (set_pendingSize None (set_pendingSize (Some sz) w)) with w.
  - reflexivity.
  - rewrite <- (set_pendingSize_None w Hp) at 1. now destruct w.
Qed.

Lemma Idle_set_debouncePending (w : World) (b : bool) :
  Idle w -> Idle (set_debouncePending b w).
Proof. intros [? ? ? ? ? ? ?]. now constructor. Qed.

Lemma Idle_set_containerWidth (w : World) (width : JS.Width) :
  Idle w -> Idle (set_containerWidth width w).
Proof. intros [? ? ? ? ? ? ?]. now constructor. Qed.

(** When the debounce timer elapses on a mounted component, the container
    is measured, and a render follows if the width is not the current
    [size]. *)
Lemma step_DebounceElapsed (w : World) :
  Idle w -> debouncePending w = true ->
  step w DebounceElapsed =
    Normal (let sz := JS.num (JS.parseInt (containerWidth w)) in
            let w1 := set_debouncePending false w in
            if JS.Object_is sz (size w) then w1
            else render (incorrectGuessCount w) sz w1).
Proof.
  intros Hidle Hdb. cbn [step]. rewrite Hdb.
  apply (Idle_set_debouncePending w false) in Hidle.
  rewrite resizeCanvas_mounted by apply Hidle. cbn [bind].
  rewrite flush_setSize by apply Hidle. reflexivity.
Qed.

Lemma Idle_step (w w' : World) (e : Event) :
  Idle w -> step w e = Normal w' -> isMounted w' = true -> Idle w'.
Proof.
  intros Hidle Hstep Hm'.
  assert (Hm : isMounted w = true) by apply Hidle.
  destruct e as [n|n|width| |].
  - cbn [step] in Hstep. unfold isMounted in Hm.
    destruct (phase w); try discriminate; congruence.
  - cbn [step] in Hstep. rewrite Hm in Hstep.
    injection Hstep as <-. now apply Idle_render_same_size.
  - cbn [step] in Hstep. injection Hstep as <-.
    destruct (resizeListener _).
    + now apply Idle_set_debouncePending, Idle_set_containerWidth.
    + now apply Idle_set_containerWidth.
  - destruct (debouncePending w) eqn:Hdb.
    + rewrite step_DebounceElapsed in Hstep by trivial. cbv zeta in Hstep.
      destruct (JS.Object_is (JS.num (JS.parseInt (containerWidth w))) (size w))
        eqn:Hsz; injection Hstep as <-.
      * now apply Idle_set_debouncePending.
      * apply Idle_render_resized; trivial; apply Hidle.
    + cbn [step] in Hstep. rewrite Hdb in Hstep. congruence.
  - cbn [step] in Hstep. rewrite Hm in Hstep. injection Hstep as <-.
    discriminate Hm'.
Qed.

Lemma Shown_step (w w' : World) (e : Event) :
  Idle w -> Shown w -> 0 <= incorrectGuessCount w -> nonNegativeCount e ->
  step w e = Normal w' -> isMounted w' = true ->
  Shown w' /\ 0 <= incorrectGuessCount w'.
Proof.
  intros Hidle Hshown Hc He Hstep Hm'.
  assert (Hm : isMounted w = true) by apply Hidle.
  destruct e as [n|n|width| |]; cbn [nonNegativeCount] in He.
  - cbn [step] in Hstep. unfold isMounted in Hm.
    destruct (phase w); try discriminate.
    injection Hstep as <-. now split.
  - cbn [step] in Hstep. rewrite Hm in Hstep. injection Hstep as <-.
    split; [now apply Shown_render_same_size|].
    now destruct (render_same_size_frame w n) as (-> & _).
  - cbn [step] in Hstep. injection Hstep as <-.
    now destruct (resizeListener _).
  - destruct (debouncePending w) eqn:Hdb.
    + rewrite step_DebounceElapsed in Hstep by trivial. cbv zeta in Hstep.
      destruct (JS.Object_is (JS.num (JS.parseInt (containerWidth w))) (size w))
        eqn:Hsz; injection Hstep as <-; [now split|].
      split; [now apply Shown_render_resized|].
      now destruct (render_resized_frame (set_debouncePending false w)
                      (incorrectGuessCount w) _ Hsz) as (-> & _).
    + cbn [step] in Hstep. rewrite Hdb in Hstep.
      injection Hstep as <-. now split.
  - cbn [step] in Hstep. rewrite Hm in Hstep. injection Hstep as <-.
    discriminate Hm'.
Qed.

(** ** Runs *)

Ltac splits := repeat match goal with |- _ /\ _ => split end.

Lemma run_cons (w w' : World) (e : Event) (events : list Event) :
  run w (e :: events) = Normal w' ->
  exists w1, step w e = Normal w1 /\ run w1 events = Normal w'.
Proof.
  cbn [run]. destruct (step w e) as [w1|err]; cbn [bind]; [|discriminate].
  intros H. now exists w1.
Qed.

(** An unmounted component stays unmounted. *)
Lemma step_Unmounted (w w' : World) (e : Event) :
  phase w = Unmounted -> step w e = Normal w' -> phase w' = Unmounted.
Proof.
  intros Hph Hstep.
  assert (Hm : isMounted w = false) by (unfold isMounted; now rewrite Hph).
  destruct e as [n|n|width| |]; cbn [step] in Hstep.
  - rewrite Hph in Hstep. congruence.
  - rewrite Hm in Hstep. congruence.
  - injection Hstep as <-. now destruct (resizeListener _).
  - destruct (debouncePending w).
    + unfold resizeCanvas in Hstep.
      change (isMounted (set_debouncePending false w)) with (isMounted w) in Hstep.
      rewrite Hm in Hstep. discriminate.
    + congruence.
  - rewrite Hm in Hstep. congruence.
Qed.

Lemma run_Unmounted (events : list Event) (w w' : World) :
  phase w = Unmounted -> run w events = Normal w' -> phase w' = Unmounted.
Proof.
  revert w. induction events as [|e events IH]; intros w Hph Hrun.
  - cbn [run] in Hrun. congruence.
  - apply run_cons in Hrun as (w1 & Hstep & Hrun).
    apply (IH w1); trivial. now apply (step_Unmounted w w1 e).
Qed.

(** A step of an idle component either leaves it mounted or unmounts it. *)
Lemma step_Idle_phase (w w' : World) (e : Event) :
  Idle w -> step w e = Normal w' ->
  isMounted w' = true \/ phase w' = Unmounted.
Proof.
  intros Hidle Hstep.
  assert (Hm : isMounted w = true) by apply Hidle.
  destruct e as [n|n|width| |].
  - left. cbn [step] in Hstep. unfold isMounted in Hm.
    destruct (phase w) eqn:Hph; try discriminate.
    injection Hstep as <-. unfold isMounted. now rewrite Hph.
  - left. cbn [step] in Hstep. rewrite Hm in Hstep. injection Hstep as <-.
    destruct (render_same_size_frame w n) as (_ & _ & _ & _ & Hph & _).
    unfold isMounted in *. now rewrite Hph.
  - left. cbn [step] in Hstep. injection Hstep as <-.
    now destruct (resizeListener _).
  - left. destruct (debouncePending w) eqn:Hdb.
    + rewrite step_DebounceElapsed in Hstep by trivial. cbv zeta in Hstep.
      destruct (JS.Object_is (JS.num (JS.parseInt (containerWidth w))) (size w))
        eqn:Hsz; injection Hstep as <-; trivial.
      destruct (render_resized_frame (set_debouncePending false w)
                  (incorrectGuessCount w) _ Hsz) as (_ & _ & _ & _ & Hph & _).
      unfold isMounted in *. now rewrite Hph.
    + cbn [step] in Hstep. rewrite Hdb in Hstep. congruence.
  - right. cbn [step] in Hstep. rewrite Hm in Hstep. now injection Hstep as <-.
Qed.

(** The guess count after a step. *)
Lemma step_incorrectGuessCount (w w' : World) (e : Event) :
  Idle w -> step w e = Normal w' -> isMounted w' = true ->
  incorrectGuessCount w' =
    match e with Update m => m | _ => incorrectGuessCount w end.
Proof.
  intros Hidle Hstep Hm'.
  assert (Hm : isMounted w = true) by apply Hidle.
  destruct e as [n|n|width| |].
  - cbn [step] in Hstep. unfold isMounted in Hm.
    destruct (phase w); try discriminate; congruence.
  - cbn [step] in Hstep. rewrite Hm in Hstep. injection Hstep as <-.
    now destruct (render_same_size_frame w n) as (-> & _).
  - cbn [step] in Hstep. injection Hstep as <-.
    now destruct (resizeListener _).
  - destruct (debouncePending w) eqn:Hdb.
    + rewrite step_DebounceElapsed in Hstep by trivial. cbv zeta in Hstep.
      destruct (JS.Object_is (JS.num (JS.parseInt (containerWidth w))) (size w))
        eqn:Hsz; injection Hstep as <-; trivial.
      now destruct (render_resized_frame (set_debouncePending false w)
                      (incorrectGuessCount w) _ Hsz) as (-> & _).
    + cbn [step] in Hstep. rewrite Hdb in Hstep. congruence.
  - cbn [step] in Hstep. rewrite Hm in Hstep. injection Hstep as <-.
    discriminate Hm'.
Qed.

Lemma run_Idle (events : list Event) (w w' : World) :
  Idle w -> run w events = Normal w' -> isMounted w' = true ->
  Idle w' /\
  incorrectGuessCount w' = lastGuessCount (incorrectGuessCount w) events.
Proof.
  revert w. induction events as [|e events IH]; intros w Hidle Hrun Hm'.
  - cbn [run] in Hrun. injection Hrun as <-. now split.
  - apply run_cons in Hrun as (w1 & Hstep & Hrun).
    destruct (step_Idle_phase w w1 e Hidle Hstep) as [Hm1|Hun].
    + destruct (IH w1) as (Hidle' & Hcount); trivial.
      { now apply (Idle_step w w1 e). }
      split; trivial. rewrite Hcount.
      rewrite (step_incorrectGuessCount w w1 e) by trivial.
      unfold lastGuessCount. cbn [fold_left]. reflexivity.
    + apply (run_Unmounted events w1 w') in Hun; trivial.
      unfold isMounted in Hm'. rewrite Hun in Hm'. discriminate.
Qed.

Lemma run_Shown (events : list Event) (w w' : World) :
  Idle w -> Shown w -> 0 <= incorrectGuessCount w ->
  Forall nonNegativeCount events ->
  run w events = Normal w' -> isMounted w' = true ->
  Shown w'.
Proof.
  revert w. induction events as [|e events IH];
    intros w Hidle Hshown Hc Hnn Hrun Hm'.
  - cbn [run] in Hrun. now injection Hrun as <-.
  - apply run_cons in Hrun as (w1 & Hstep & Hrun).
    inversion Hnn as [|e' es He Hes]; subst.
    destruct (step_Idle_phase w w1 e Hidle Hstep) as [Hm1|Hun].
    + destruct (Shown_step w w1 e) as (Hshown1 & Hc1); trivial.
      apply (IH w1); trivial. now apply (Idle_step w w1 e).
    + apply (run_Unmounted events w1 w') in Hun; trivial.
      unfold isMounted in Hm'. rewrite Hun in Hm'. discriminate.
Qed.

Lemma run_nonNegativeCount (events : list Event) (w w' : World) :
  Idle w -> Shown w -> 0 <= incorrectGuessCount w ->
  Forall nonNegativeCount events ->
  run w events = Normal w' -> isMounted w' = true ->
  0 <= incorrectGuessCount w'.
Proof.
  revert w. induction events as [|e events IH];
    intros w Hidle Hshown Hc Hnn Hrun Hm'.
  - cbn [run] in Hrun. now injection Hrun as <-.
  - apply run_cons in Hrun as (w1 & Hstep & Hrun).
    inversion Hnn as [|e' es He Hes]; subst.
    destruct (step_Idle_phase w w1 e Hidle Hstep) as [Hm1|Hun].
    + destruct (Shown_step w w1 e) as (Hshown1 & Hc1); trivial.
      apply (IH w1); trivial. now apply (Idle_step w w1 e).
    + apply (run_Unmounted events w1 w') in Hun; trivial.
      unfold isMounted in Hm'. rewrite Hun in Hm'. discriminate.
Qed.

(** Mounting on a fresh page. *)
Lemma mount_page (width : JS.Width) (n : Z) :
  exists w,
    run (page width) [Mount n] = Normal w /\ Idle w /\
    size w = JS.num (JS.parseInt width) /\
    hangmanParts w = getHangmanParts (JS.num (JS.parseInt width)) /\
    incorrectGuessCount w = n /\
    painted w =
      paints (JS.slice (getHangmanParts (JS.num (JS.parseInt width))) 0 n).
Proof.
  destruct (mount_spec (page width) n) as (w & Hstep & Hidle & Hs & Hn & Hp & _);
    [reflexivity|].
  exists w. cbn [run]. rewrite Hstep. cbn [bind]. rewrite Hs in Hp.
  splits; trivial.
  rewrite (idle_parts w Hidle). now rewrite Hs.
Qed.

Lemma mount_page_Shown (width : JS.Width) (n : Z) :
  0 <= n ->
  exists w,
    run (page width) [Mount n] = Normal w /\ Idle w /\ Shown w /\
    size w = JS.num (JS.parseInt width) /\
    hangmanParts w = getHangmanParts (JS.num (JS.parseInt width)) /\
    incorrectGuessCount w = n.
Proof.
  intros Hn.
  destruct (mount_page width n) as (w & Hrun & Hidle & Hs & Hparts & Hc & Hp).
  exists w. splits; trivial.
  unfold Shown. now rewrite Hp, Hparts, Hc, slice_firstn.
Qed.

(** A re-render of an idle component with a non-negative guess count. *)
Lemma step_Update (w : World) (n : Z) :
  Idle w -> Shown w -> 0 <= incorrectGuessCount w -> 0 <= n ->
  exists w',
    step w (Update n) = Normal w' /\ Idle w' /\ Shown w' /\
    size w' = size w /\ hangmanParts w' = hangmanParts w /\
    hangmanPartsInstance w' = hangmanPartsInstance w /\
    incorrectGuessCount w' = n.
Proof.
  intros Hidle Hshown Hc Hn. exists (render n (size w) w).
  cbn [step]. rewrite (idle_mounted w Hidle).
  destruct (render_same_size_frame w n) as (Hn' & Hs & Hp & Hi & _).
  splits; trivial.
  - now apply Idle_render_same_size.
  - now apply Shown_render_same_size.
Qed.

Lemma last_cons_default {A : Type} (l : list A) (x d d' : A) :
  last (x :: l) d = last (x :: l) d'.
Proof.
  revert x. induction l as [|y l IH]; intros x; [reflexivity|].
  change (last (y :: l) d = last (y :: l) d'). apply IH.
Qed.

Lemma run_Updates (ns : list Z) (w : World) :
  Idle w -> Shown w -> 0 <= incorrectGuessCount w -> Forall (Z.le 0) ns ->
  exists w',
    run w (map Update ns) = Normal w' /\ Idle w' /\ Shown w' /\
    size w' = size w /\ hangmanParts w' = hangmanParts w /\
    incorrectGuessCount w' = last ns (incorrectGuessCount w).
Proof.
  revert w. induction ns as [|n ns IH]; intros w Hidle Hshown Hc Hns.
  - exists w. now splits.
  - inversion Hns as [|n' ns' Hn Hns']; subst.
    destruct (step_Update w n) as (w1 & Hstep & Hidle1 & Hshown1 & Hs1 & Hp1 & _ & Hc1);
      trivial.
    destruct (IH w1) as (w' & Hrun & Hidle' & Hshown' & Hs' & Hp' & Hc');
      trivial; [lia|].
    exists w'. cbn [map run]. rewrite Hstep. cbn [bind].
    splits; trivial; try congruence.
    rewrite Hc', Hc1. destruct ns as [|z ns]; [reflexivity|].
    change (last (z :: ns) n = last (z :: ns) (incorrectGuessCount w)).
    apply last_cons_default.
Qed.

(** *** The stories *)

(** "Default State": nothing is drawn at count 0. *)
Example story_default_state : painted (mounted350 0) = [].
Proof. vm_compute. reflexivity. Qed.

(** "Parts Drawn": at count 7 the frame, the rope, the head, the body and the
    left arm are drawn, the frame 10 wide and the rest 2 wide. *)
Example story_parts_drawn :
  painted (mounted350 7) =
    paints [platform (JS.num (JS.lit 350)); post (JS.num (JS.lit 350));
            pole (JS.num (JS.lit 350)); rope (JS.num (JS.lit 350));
            head (JS.num (JS.lit 350)); body (JS.num (JS.lit 350));
            leftArm (JS.num (JS.lit 350))] /\
  map strokeWidth (painted (mounted350 7)) = [10; 10; 10; 2; 2; 2; 2].
Proof. split; vm_compute; reflexivity. Qed.

(** The application shell renders count 10: all ten parts. *)
Example app_all_parts :
  length (painted (mounted350 10)) = 10%nat /\
  drawnPartsRef (mounted350 10) = 10.
Proof. split; vm_compute; reflexivity. Qed.

(** A resize to the width the container already has causes no render. *)
Example resize_same_width :
  run (mounted350 7) [WindowResize 350; DebounceElapsed] =
    Normal (set_containerWidth 350 (mounted350 7)).
Proof. vm_compute. reflexivity. Qed.

(** * Specification properties *)

(** ** The geometry generator *)

(** C1. For every size, [getHangmanParts] returns exactly 10 operations in
    the order platform, post, pole, rope, head, body, leftArm, rightArm,
    leftLeg, rightLeg. It is a function of the size alone, and each operation
    acts on the context it is given only: run by [draw], it appends one
    stroke, the same whatever the context was. *)
Theorem getHangmanParts_ten_parts_in_order (size : JS.value) :
  length (getHangmanParts size) = 10%nat /\
  getHangmanParts size =
    [platform size; post size; pole size; rope size; head size; body size;
     leftArm size; rightArm size; leftLeg size; rightLeg size] /\
  Forall (fun f => exists st, forall c, surface (draw c f) = surface c ++ [st])
         (getHangmanParts size).
Proof.
  split; [reflexivity|]. split; [reflexivity|].
  apply Forall_forall. intros f Hf.
  assert (Hst : exists st, strokeOf f = [st]).
  { unfold getHangmanParts in Hf. cbn [In] in Hf.
    repeat (destruct Hf as [<-|Hf]; [eexists; reflexivity|]).
    contradiction. }
  destruct Hst as [st Hst]. exists st. intros c.
  now rewrite (draw_part size), Hst.
Qed.

(** The line widths of the ten strokes: the frame is drawn 10 wide, and the
    width a frame part sets does not reach the parts drawn after it. *)
Lemma paints_strokeWidth (s : JS.value) :
  map strokeWidth (paints (getHangmanParts s)) = [10; 10; 10; 2; 2; 2; 2; 2; 2; 2].
Proof. reflexivity. Qed.

(** ** The incremental renderer *)


(** The same for a whole render: an idle component re-rendered with a guess
    count that did not decrease gets just the new parts painted. *)
Lemma update_paints_new_parts (w : World) (n : Z) :
  Idle w -> 0 <= incorrectGuessCount w <= n ->
  exists w',
    step w (Update n) = Normal w' /\
    painted w' =
      painted w ++ indexRange (partStrokes (size w)) (incorrectGuessCount w) n /\
    hangmanParts w' = hangmanParts w /\
    drawnPartsRef w' = n.
Proof.
  intros Hidle Hn. exists (render n (size w) w).
  cbn [step]. rewrite (idle_mounted w Hidle). split; [reflexivity|].
  assert (Hidle' : Idle (render n (size w) w)) by now apply Idle_render_same_size.
  destruct (render_same_size_frame w n) as (Hc' & _ & Hp' & _).
  split; [|split; [exact Hp'|now rewrite (idle_drawn _ Hidle')]].
  rewrite render_same_size.
  destruct (Z.eqb_spec n (incorrectGuessCount w)) as [->|Hne].
  - unfold indexRange. rewrite skipn_firstn_comm, Nat.sub_diag.
    cbn [firstn]. now rewrite app_nil_r.
  - set (w1 := set_incorrectGuessCount n w).
    rewrite (drawEffect_painted w1 (size w)) by exact (idle_parts w Hidle).
    assert (Hprev : previousIncorrectGuessCountRef w1 = incorrectGuessCount w)
      by exact (idle_previous w Hidle).
    assert (Hd : drawnPartsRef w1 = incorrectGuessCount w)
      by exact (idle_drawn w Hidle).
    rewrite partsToDraw_forward.
    + destruct (resetIfBackward_cases w1) as [[H _]|[_ ->]].
      * rewrite Hprev in H. change (incorrectGuessCount w1) with n in H. lia.
      * rewrite Hd. change (hangmanParts w1) with (hangmanParts w).
        rewrite (idle_parts w Hidle), paints_indexRange_parts. reflexivity.
    + rewrite Hprev. change (incorrectGuessCount w1) with n. lia.
    + rewrite Hd. lia.
    + change (incorrectGuessCount w1) with n. lia.
Qed.


(** C3. In a render whose guess count is below the previously observed one,
    the draw effect first clears the surface and resets the drawn count to
    0, then draws from index 0. Mounted with 7 and re-rendered with 0 the
    surface is empty; re-rendered with 3 after that it shows exactly the
    first 3 operations: the platform, the post and the pole, each 10 wide. *)
Theorem backward_count_resets_then_draws (w : World) (s : JS.value) :
  hangmanParts w = getHangmanParts s ->
  incorrectGuessCount w < previousIncorrectGuessCountRef w ->
  (painted (resetIfBackward w) = [] /\
   drawnPartsRef (resetIfBackward w) = 0 /\
   partsToDraw (resetIfBackward w) =
     JS.slice (hangmanParts w) 0 (incorrectGuessCount w) /\
   painted (drawEffect w) =
     JS.slice (partStrokes s) 0 (incorrectGuessCount w)) /\
  (forall width : JS.Width, exists w7 w0 w3,
     run (page width) [Mount 7] = Normal w7 /\
     step w7 (Update 0) = Normal w0 /\ painted w0 = [] /\
     step w0 (Update 3) = Normal w3 /\
     painted w3 = firstn 3 (partStrokes (JS.num (JS.parseInt width))) /\
     painted w3 =
       (let size : JS.number := JS.parseInt width in
        [ mkStroke 10 [MoveTo 0 size; LineTo size size];
          mkStroke 10 [MoveTo 0 0; LineTo 0 size];
          mkStroke 10 [MoveTo 0 0; LineTo (size / 2)%js 0] ])).
Proof.
  intros Hparts Hlt. split.
  - destruct (resetIfBackward_cases w) as [[_ Hreset]|[H _]]; [|lia].
    assert (Hd : drawnPartsRef (resetIfBackward w) = 0) by now rewrite Hreset.
    splits.
    + now rewrite Hreset.
    + exact Hd.
    + now apply partsToDraw_from_zero.
    + rewrite (drawEffect_painted w s), partsToDraw_from_zero by trivial.
      rewrite Hreset, resetCanvas_painted, Hparts.
      now rewrite paints_slice_parts.
  - intros width.
    destruct (mount_page_Shown width 7) as (w7 & Hrun & Hidle7 & Hshown7 & _ & Hp7 & Hc7);
      [lia|].
    destruct (step_Update w7 0) as (w0 & Hstep0 & Hidle0 & Hshown0 & _ & Hp0 & _ & Hc0);
      trivial; [lia..|].
    destruct (step_Update w0 3) as (w3 & Hstep3 & _ & Hshown3 & _ & Hp3 & _ & Hc3);
      trivial; [lia..|].
    assert (Hpainted : painted w3 =
                       firstn 3 (partStrokes (JS.num (JS.parseInt width)))).
    { unfold Shown in Hshown3. rewrite Hc3, Hp3, Hp0, Hp7 in Hshown3.
      now rewrite Hshown3, paints_firstn_parts. }
    exists w7, w0, w3. splits; trivial.
    unfold Shown in Hshown0. now rewrite Hc0 in Hshown0.
Qed.

Lemma backward_count_resets_then_draws_witness :
  let w := set_incorrectGuessCount 3 (mounted350 7) in
  painted (resetIfBackward w) = [] /\
  drawnPartsRef (resetIfBackward w) = 0 /\
  partsToDraw (resetIfBackward w) = JS.slice (hangmanParts w) 0 3 /\
  painted (drawEffect w) = JS.slice (partStrokes (JS.num (JS.lit 350))) 0 3.
Proof.
  intros w.
  assert (Hparts : hangmanParts w = getHangmanParts (JS.num (JS.lit 350)))
    by (vm_compute; reflexivity).
  assert (Hlt : incorrectGuessCount w < previousIncorrectGuessCountRef w)
    by (vm_compute; reflexivity).
  exact (proj1 (backward_count_resets_then_draws w _ Hparts Hlt)).
Defined.

(** The draw effect, run again in an idle state, changes nothing. *)
Lemma drawEffect_Idle (w : World) : Idle w -> drawEffect w = w.
Proof.
  intros [Hm Hl Hp Hparts Hdim Hd Hprev].
  assert (Hsame : resetIfBackward w = w)
    by (destruct (resetIfBackward_cases w) as [[H _]|[_ H]]; [lia|exact H]).
  unfold drawEffect. rewrite Hsame. cbv zeta.
  change (partsToDraw (set_previousIncorrectGuessCountRef (incorrectGuessCount w) w))
    with (JS.slice (hangmanParts w) (drawnPartsRef w) (incorrectGuessCount w)).
  rewrite Hd, slice_empty. cbn [fold_left].
  destruct w as [cw rl dp ph n sz ps hp hi d pr [dim ctx]].
  cbn in Hd, Hprev |- *. now subst.
Qed.

(** C7. Rendering with guess count [n] and then again with the same [n]
    draws nothing more: the second render leaves the state as it is, and the
    draw effect, were it run in that state, would have an empty range to
    draw and change nothing. *)
Theorem rerender_same_count_draws_nothing (w : World) (n : Z) :
  Idle w ->
  let w1 := render n (size w) w in
  step w (Update n) = Normal w1 /\
  step w1 (Update n) = Normal w1 /\
  partsToDraw (resetIfBackward w1) = [] /\
  drawEffect w1 = w1.
Proof.
  intros Hidle w1.
  assert (Hidle1 : Idle w1) by now apply Idle_render_same_size.
  assert (Hn : incorrectGuessCount w1 = n)
    by exact (proj1 (render_same_size_frame w n)).
  splits.
  - cbn [step]. now rewrite (idle_mounted w Hidle).
  - cbn [step]. rewrite (idle_mounted w1 Hidle1), render_same_size, Hn.
    now rewrite Z.eqb_refl.
  - destruct (resetIfBackward_cases w1) as [[H _]|[_ ->]].
    + rewrite (idle_previous w1 Hidle1) in H. lia.
    + unfold partsToDraw. rewrite (idle_drawn w1 Hidle1). apply slice_empty.
  - now apply drawEffect_Idle.
Qed.

Lemma rerender_same_count_draws_nothing_witness :
  let w1 := render 7 (size (mounted350 3)) (mounted350 3) in
  Idle (mounted350 3) /\
  step w1 (Update 7) = Normal w1 /\ partsToDraw (resetIfBackward w1) = [].
Proof.
  assert (Hidle : Idle (mounted350 3)) by (constructor; vm_compute; reflexivity).
  destruct (rerender_same_count_draws_nothing (mounted350 3) 7 Hidle)
    as (_ & Hagain & Hnone & _).
  exact (conj Hidle (conj Hagain Hnone)).
Defined.

(** C10. For a guess count [n] with -10 < n < 0, a draw effect that starts
    from a drawn count of 0 paints the first [10 + n] operations, the end
    index of the slice counting from the end of the ten, and stores [n] as
    the drawn count. So it is when the component is mounted with [n], and
    when an idle component is re-rendered from a larger count to [n]: the
    surface then holds the strokes of the first [10 + n] parts, which are
    [10 + n] strokes and not none. *)
Theorem negative_count_draws_from_the_end (n : Z) :
  -10 < n < 0 ->
  (forall w s,
     hangmanParts w = getHangmanParts s ->
     incorrectGuessCount w = n ->
     drawnPartsRef (resetIfBackward w) = 0 ->
     partsToDraw (resetIfBackward w) =
       firstn (Z.to_nat (10 + n)) (hangmanParts w) /\
     painted (drawEffect w) =
       painted (resetIfBackward w) ++
       firstn (Z.to_nat (10 + n)) (partStrokes s) /\
     drawnPartsRef (drawEffect w) = n) /\
  (forall width : JS.Width, exists w,
     run (page width) [Mount n] = Normal w /\
     painted w =
       firstn (Z.to_nat (10 + n)) (partStrokes (JS.num (JS.parseInt width))) /\
     length (painted w) = Z.to_nat (10 + n) /\
     drawnPartsRef w = n) /\
  (forall w, Idle w -> n < incorrectGuessCount w ->
     exists w',
       step w (Update n) = Normal w' /\
       painted w' = firstn (Z.to_nat (10 + n)) (partStrokes (size w)) /\
       length (painted w') = Z.to_nat (10 + n) /\
       drawnPartsRef w' = n).
Proof.
  intros Hn.
  assert (Hslice : forall s,
            JS.slice (getHangmanParts s) 0 n =
            firstn (Z.to_nat (10 + n)) (getHangmanParts s))
    by (intros s; now rewrite slice_negative_end).
  assert (Hlength : forall s,
            length (firstn (Z.to_nat (10 + n)) (partStrokes s)) =
            Z.to_nat (10 + n)).
  { intros s. rewrite length_firstn.
    change (length (partStrokes s)) with 10%nat. lia. }
  assert (Heffect : forall w s,
     hangmanParts w = getHangmanParts s ->
     incorrectGuessCount w = n ->
     drawnPartsRef (resetIfBackward w) = 0 ->
     partsToDraw (resetIfBackward w) =
       firstn (Z.to_nat (10 + n)) (hangmanParts w) /\
     painted (drawEffect w) =
       painted (resetIfBackward w) ++
       firstn (Z.to_nat (10 + n)) (partStrokes s) /\
     drawnPartsRef (drawEffect w) = n).
  { intros w s Hparts Hc Hd.
    assert (Hto : partsToDraw (resetIfBackward w) =
                  firstn (Z.to_nat (10 + n)) (hangmanParts w)).
    { rewrite partsToDraw_from_zero by trivial. rewrite Hc, Hparts. apply Hslice. }
    splits; trivial.
    - rewrite (drawEffect_painted w s), Hto, Hparts by trivial.
      now rewrite paints_firstn_parts.
    - now rewrite drawEffect_drawnPartsRef. }
  splits; trivial.
  - intros width.
    destruct (mount_page width n) as (w & Hrun & Hidle & _ & _ & Hc & Hp).
    assert (Hpainted : painted w =
              firstn (Z.to_nat (10 + n)) (partStrokes (JS.num (JS.parseInt width))))
      by now rewrite Hp, Hslice, paints_firstn_parts.
    exists w. splits; trivial.
    + rewrite Hpainted. apply Hlength.
    + now rewrite (idle_drawn w Hidle).
  - intros w Hidle Hlt. exists (render n (size w) w).
    cbn [step]. rewrite (idle_mounted w Hidle). split; [reflexivity|].
    rewrite render_same_size.
    destruct (Z.eqb_spec n (incorrectGuessCount w)) as [Heq|_]; [lia|].
    set (w1 := set_incorrectGuessCount n w).
    assert (Hreset : resetIfBackward w1 = resetCanvas w1).
    { destruct (resetIfBackward_cases w1) as [[_ H]|[H _]]; trivial.
      change (previousIncorrectGuessCountRef w <= n) in H.
      rewrite (idle_previous w Hidle) in H. lia. }
    destruct (Heffect w1 (size w)) as (_ & Hpainted & Hd).
    + exact (idle_parts w Hidle).
    + reflexivity.
    + now rewrite Hreset.
    + rewrite Hreset in Hpainted. cbn [app] in Hpainted.
      change (painted (resetCanvas w1)) with (@nil Stroke) in Hpainted.
      cbn [app] in Hpainted.
      splits; trivial. rewrite Hpainted. apply Hlength.
Qed.

Lemma negative_count_draws_from_the_end_witness :
  exists w,
    run (page 350) [Mount (-3)] = Normal w /\
    painted w = firstn 7 (partStrokes (JS.num (JS.lit 350))) /\
    length (painted w) = 7%nat /\
    drawnPartsRef w = -3.
Proof.
  assert (H : -10 < -3 < 0) by lia.
  exact (proj1 (proj2 (negative_count_draws_from_the_end (-3) H)) (JS.px 350)).
Defined.

(** ** The drawn count and the surface *)

Lemma firstn_min_ten {A : Type} (l : list A) (n : Z) :
  length l = 10%nat ->
  firstn (Z.to_nat (Z.min n 10)) l = firstn (Z.to_nat n) l.
Proof.
  intros Hlen. destruct (Z.le_gt_cases n 10) as [H|H].
  - now rewrite Z.min_l.
  - rewrite Z.min_r by lia. rewrite !firstn_all2; trivial; lia.
Qed.

(** C4, as the code has it. After every render the stored drawn count is
    the guess count rendered last, as it is (a count of 12 is stored as 12).
    As long as no guess count rendered was negative, the surface shows
    exactly the first min(drawn count, 10) operations, painted in order: it
    holds their strokes, at the current size, and nothing else. *)
Theorem drawn_count_is_last_guess_count
    (width : JS.Width) (n0 : Z) (events : list Event) (w : World) :
  run (page width) (Mount n0 :: events) = Normal w ->
  isMounted w = true ->
  let n := lastGuessCount n0 events in
  incorrectGuessCount w = n /\ drawnPartsRef w = n /\
  (0 <= n0 -> Forall nonNegativeCount events ->
   painted w = firstn (Z.to_nat (Z.min n 10)) (partStrokes (size w)) /\
   length (painted w) = Z.to_nat (Z.min n 10)).
Proof.
  intros Hrun Hm n.
  destruct (mount_page width n0) as (w1 & Hrun1 & Hidle1 & _ & Hparts1 & Hc1 & Hp1).
  apply run_cons in Hrun as (w1' & Hstep & Hrun).
  cbn [run] in Hrun1. rewrite Hstep in Hrun1. cbn [bind] in Hrun1.
  injection Hrun1 as ->.
  destruct (run_Idle events w1 w Hidle1 Hrun Hm) as (Hidle & Hc).
  rewrite Hc1 in Hc. fold n in Hc.
  splits; trivial.
  - now rewrite (idle_drawn w Hidle).
  - intros Hn0 Hnn.
    assert (Hshown1 : Shown w1)
      by (unfold Shown; now rewrite Hp1, Hparts1, Hc1, slice_firstn).
    assert (Hshown : Shown w)
      by (apply (run_Shown events w1 w); trivial; lia).
    assert (Hnn' : 0 <= n).
    { rewrite <- Hc. apply (run_nonNegativeCount events w1 w); trivial. lia. }
    assert (Hpainted : painted w =
              firstn (Z.to_nat (Z.min n 10)) (partStrokes (size w))).
    { unfold Shown in Hshown. rewrite Hc in Hshown. rewrite Hshown.
      rewrite (idle_parts w Hidle), paints_firstn_parts.
      now rewrite firstn_min_ten. }
    split; [exact Hpainted|].
    rewrite Hpainted, length_firstn.
    change (length (partStrokes (size w))) with 10%nat. lia.
Qed.

Lemma drawn_count_is_last_guess_count_witness :
  let w := worldOf (run (page 350) [Mount 3; Update 12]) in
  incorrectGuessCount w = 12 /\ drawnPartsRef w = 12 /\
  painted w = firstn 10 (partStrokes (size w)) /\
  length (painted w) = 10%nat.
Proof.
  intros w.
  assert (Hrun : run (page 350) [Mount 3; Update 12] = Normal w)
    by (vm_compute; reflexivity).
  assert (Hm : isMounted w = true) by (vm_compute; reflexivity).
  destruct (drawn_count_is_last_guess_count (JS.px 350) 3 [Update 12] w Hrun Hm)
    as (Hc & Hd & Hp).
  assert (Hn0 : 0 <= 3) by lia.
  assert (Hnn : Forall nonNegativeCount [Update 12])
    by (repeat constructor; cbn; lia).
  exact (conj Hc (conj Hd (Hp Hn0 Hnn))).
Defined.

(** C4, as stated, fails: mounted with 12 the drawn count is 12, not 10;
    mounted with -3 it is -3, not 0, and the surface shows seven parts. *)
Lemma drawn_count_not_clamped :
  (exists w,
     run (page 350) [Mount 12] = Normal w /\
     incorrectGuessCount w = 12 /\
     drawnPartsRef w <> clamp 0 10 (incorrectGuessCount w)) /\
  (exists w,
     run (page 350) [Mount (-3)] = Normal w /\
     incorrectGuessCount w = -3 /\
     drawnPartsRef w <> clamp 0 10 (incorrectGuessCount w) /\
     painted w <>
       paints (firstn (Z.to_nat (clamp 0 10 (incorrectGuessCount w)))
                      (hangmanParts w))).
Proof.
  split.
  - exists (mounted350 12). splits.
    + vm_compute. reflexivity.
    + vm_compute. reflexivity.
    + vm_compute. discriminate.
  - exists (mounted350 (-3)). splits.
    + vm_compute. reflexivity.
    + vm_compute. reflexivity.
    + vm_compute. discriminate.
    + vm_compute. discriminate.
Qed.

(** ** Size changes *)

(** C5. When the size changes (the debounce timer elapses after a resize
    that made the container's width differ from [size]), the render
    regenerates the parts as a new instance from the new size, and before the
    draw effect runs the surface is blank and the drawn count is 0; the
    effect then draws the first [n] operations at the new size: the surface
    holds their strokes, with the coordinates of the new size. A change of
    the guess count alone keeps the parts and their instance. *)
Theorem size_change_resets_and_regenerates (w : World) (width : JS.Width) :
  Idle w ->
  let sz := JS.num (JS.parseInt width) in
  let n := incorrectGuessCount w in
  JS.Object_is sz (size w) = false ->
  (exists w0 w',
     run w [WindowResize width; DebounceElapsed] = Normal w' /\
     w' = drawEffect w0 /\
     painted w0 = [] /\ drawnPartsRef w0 = 0 /\
     hangmanParts w0 = getHangmanParts sz /\
     size w' = sz /\ dimension (canvas w') = sz /\
     hangmanParts w' = getHangmanParts sz /\
     hangmanPartsInstance w' = S (hangmanPartsInstance w) /\
     incorrectGuessCount w' = n /\ drawnPartsRef w' = n /\
     painted w' = JS.slice (partStrokes sz) 0 n /\
     (0 <= n ->
      painted w' = firstn (Z.to_nat n) (partStrokes sz) /\
      length (painted w') = Z.to_nat (Z.min n 10))) /\
  (forall m, exists w',
     step w (Update m) = Normal w' /\
     hangmanPartsInstance w' = hangmanPartsInstance w /\
     hangmanParts w' = hangmanParts w /\
     size w' = size w).
Proof.
  intros Hidle sz n Hsz. split.
  - set (w1 := set_debouncePending true (set_containerWidth width w)).
    assert (Hstep1 : step w (WindowResize width) = Normal w1).
    { cbn [step]. change (resizeListener (set_containerWidth width w))
        with (resizeListener w). now rewrite (idle_listener w Hidle). }
    assert (Hidle1 : Idle w1)
      by now apply Idle_set_debouncePending, Idle_set_containerWidth.
    set (w2 := set_debouncePending false w1).
    assert (Hsz2 : JS.Object_is sz (size w2) = false) by exact Hsz.
    assert (Hstep2 : step w1 DebounceElapsed = Normal (render n sz w2)).
    { rewrite step_DebounceElapsed by trivial. cbv zeta.
      change (containerWidth w1) with width. change (size w1) with (size w).
      fold sz. now rewrite Hsz. }
    assert (Hidle' : Idle (render n sz w2))
      by (apply Idle_render_resized; trivial; apply Hidle).
    destruct (render_resized_frame w2 n sz Hsz2)
      as (Hn' & Hs' & Hp' & Hi' & _).
    assert (Hpainted : painted (render n sz w2) = JS.slice (partStrokes sz) 0 n)
      by now rewrite render_resized_painted, paints_slice_parts.
    exists (resized n sz w2), (render n sz w2). splits; trivial.
    + cbn [run]. rewrite Hstep1. cbn [bind]. rewrite Hstep2. reflexivity.
    + now apply render_resized.
    + rewrite (idle_canvas _ Hidle'). exact Hs'.
    + rewrite (idle_drawn _ Hidle'). exact Hn'.
    + intros Hn.
      assert (Hfirst : painted (render n sz w2) =
                       firstn (Z.to_nat n) (partStrokes sz))
        by now rewrite Hpainted, slice_firstn.
      split; [exact Hfirst|].
      rewrite Hfirst, length_firstn.
      change (length (partStrokes sz)) with 10%nat. lia.
  - intros m. exists (render m (size w) w).
    cbn [step]. rewrite (idle_mounted w Hidle).
    destruct (render_same_size_frame w m) as (_ & Hs & Hp & Hi & _).
    now splits.
Qed.

Lemma size_change_resets_and_regenerates_witness :
  exists w',
    run (mounted350 5) [WindowResize 400; DebounceElapsed] = Normal w' /\
    hangmanPartsInstance w' = S (hangmanPartsInstance (mounted350 5)) /\
    painted w' = firstn 5 (partStrokes (JS.num (JS.lit 400))) /\
    length (painted w') = 5%nat.
Proof.
  assert (Hidle : Idle (mounted350 5)) by (constructor; vm_compute; reflexivity).
  assert (Hsz : JS.Object_is (JS.num (JS.parseInt (JS.px 400)))
                             (size (mounted350 5)) = false)
    by (vm_compute; reflexivity).
  destruct (size_change_resets_and_regenerates (mounted350 5) (JS.px 400) Hidle Hsz)
    as ((w0 & w' & Hrun & _ & _ & _ & _ & _ & _ & _ & Hi & Hc & _ & _ & Hp) & _).
  exists w'. split; [exact Hrun|]. split; [exact Hi|].
  assert (Hn : 0 <= incorrectGuessCount (mounted350 5)) by (vm_compute; discriminate).
  exact (Hp Hn).
Defined.

(** ** Incremental and batch drawing *)

(** C6. At a fixed size, rendering through the counts 0, 1, 2, ..., 10 one
    after the other leaves the same strokes on the surface as a single
    render at count 10: those of all ten parts, in order. *)
Theorem incremental_draw_equals_batch_draw (width : Z) :
  exists w w',
    run (page width) (Mount 0 :: map Update [1; 2; 3; 4; 5; 6; 7; 8; 9; 10])
      = Normal w /\
    run (page width) [Mount 10] = Normal w' /\
    painted w = painted w' /\
    painted w' = paints (getHangmanParts (JS.num (JS.lit width))).
Proof.
  destruct (mount_page_Shown width 0) as (w0 & Hrun0 & Hidle0 & Hshown0 & _ & Hp0 & Hc0);
    [lia|].
  destruct (mount_page_Shown width 10) as (w' & Hrun' & _ & Hshown' & _ & Hp' & Hc');
    [lia|].
  destruct (run_Updates [1; 2; 3; 4; 5; 6; 7; 8; 9; 10] w0)
    as (w & Hrun & _ & Hshown & _ & Hp & Hc); trivial; [lia| |].
  { repeat constructor; lia. }
  exists w, w'.
  assert (Hstep0 : step (page width) (Mount 0) = Normal w0).
  { cbn [run] in Hrun0. destruct (step (page width) (Mount 0)); [|discriminate].
    exact Hrun0. }
  unfold Shown in Hshown, Hshown'.
  rewrite Hc, Hp, Hp0 in Hshown. rewrite Hc', Hp' in Hshown'.
  splits; trivial.
  - change (run (page width) (Mount 0 :: ?l))
      with (bind (step (page width) (Mount 0)) (fun w => run w l)).
    rewrite Hstep0. exact Hrun.
  - now rewrite Hshown, Hshown'.
Qed.

(** ** Proportions *)


Lemma pixelSizes_all (P : Z -> bool) :
  forallb P pixelSizes = true -> forall z, 0 <= z <= 4096 -> P z = true.
Proof.
  intros H z Hz. rewrite forallb_forall in H. apply H.
  unfold pixelSizes. apply in_map_iff. exists (Z.to_nat z). split; [lia|].
  apply in_seq. lia.
Qed.


(** The arithmetic is that of doubles: at the stories' width of 350 the
    left arm runs from (175, 116.66666666666667) to x = 116.66666666666666,
    which is 175 - 58.333333333333336 rounded, and not a third of 350. *)
Example leftArm_at_350 :
  isSegment (leftArm (JS.num (JS.lit 350)))
    (JS.lit 175) (S754_finite false 8209686820727467 (-46))
    (S754_finite false 8209686820727466 (-46))
    (S754_finite false 8209686820727467 (-46)) /\
  (JS.lit 350 / 3)%js = S754_finite false 8209686820727467 (-46).
Proof.
  split; [|vm_compute; reflexivity].
  eexists. vm_compute. reflexivity.
Qed.




(** ** Unmounting *)

(** The cleanup of the resize effect removes the listener: resize events
    that follow schedule nothing. A debounced call that is already pending
    stays pending. *)
Lemma unmount_removes_listener (w : World) :
  resizeListener (unmount w) = false /\
  debouncePending (unmount w) = debouncePending w /\
  forall width,
    step (unmount w) (WindowResize width) =
      Normal (set_containerWidth width (unmount w)).
Proof.
  splits; reflexivity.
Qed.

(** C9 at its failing input. The component is mounted, the window is
    resized, and the component is unmounted before the 50 ms have passed:
    the listener is removed, but the debounced call is still pending, and
    when the timer elapses [resizeCanvas] runs on the detached container
    and throws. *)
Theorem unmount_leaves_debounce_pending :
  exists w,
    run (page 350) [Mount 0; WindowResize 400; Unmount] = Normal w /\
    isMounted w = false /\
    resizeListener w = false /\
    debouncePending w = true /\
    step w DebounceElapsed = Throw TypeError.
Proof.
  exists (worldOf (run (page 350) [Mount 0; WindowResize 400; Unmount])).
  splits; vm_compute; reflexivity.
Qed.


(** * Further properties of the code *)

(** ** Coordinates that are not numbers *)

Lemma noNaN_pixelSizes :
  forallb (fun z =>
             negb (existsb hasNaN
                     (flat_map strokePath
                        (paints (getHangmanParts (JS.num (JS.lit z)))))))
          pixelSizes = true.
Proof. vm_compute. reflexivity. Qed.

(** X3. For a size that converts to [NaN], as the undefined size of the
    first render does and as a width that [parseInt] cannot read does, every
    command that would extend a path has a [NaN] coordinate: no part has a
    segment or an arc with finite coordinates. For the whole pixel sizes up to
    4096 no path command of any part has a [NaN] coordinate. *)
Theorem parts_coordinates_NaN (size : JS.value) :
  let commands size := flat_map strokePath (paints (getHangmanParts size)) in
  (JS.ToNumber size = JS.NaN ->
   forallb (fun p => implb (extendsPath p) (hasNaN p)) (commands size) = true) /\
  (forall z, 0 <= z <= 4096 ->
   existsb hasNaN (commands (JS.num (JS.lit z))) = false).
Proof.
  split.
  - intros Hnan. destruct size as [|x]; [reflexivity|].
    cbn [JS.ToNumber] in Hnan. subst x. reflexivity.
  - intros z Hz.
    pose proof (pixelSizes_all _ noNaN_pixelSizes z Hz) as H.
    now apply negb_true_iff in H.
Qed.

Lemma parts_coordinates_NaN_witness :
  forallb (fun p => implb (extendsPath p) (hasNaN p))
          (flat_map strokePath (paints (getHangmanParts JS.undefined))) = true /\
  existsb hasNaN
          (flat_map strokePath (paints (getHangmanParts (JS.num (JS.lit 350))))) = false.
Proof.
  assert (Hz : 0 <= 350 <= 4096) by lia.
  split.
  - exact (proj1 (parts_coordinates_NaN JS.undefined) eq_refl).
  - exact (proj2 (parts_coordinates_NaN JS.undefined) 350 Hz).
Defined.

(** ** Resizing *)

Lemma run_app (events events' : list Event) (w : World) :
  run w (events ++ events') = w' <- run w events ;; run w' events'.
Proof.
  revert w. induction events as [|e events IH]; intros w; [reflexivity|].
  cbn [app run]. destruct (step w e) as [w1|err]; cbn [bind]; [apply IH|reflexivity].
Qed.

Lemma step_WindowResize (w : World) (width : JS.Width) :
  resizeListener w = true ->
  step w (WindowResize width) =
    Normal (set_debouncePending true (set_containerWidth width w)).
Proof.
  intros Hl. cbn [step].
  change (resizeListener (set_containerWidth width w)) with (resizeListener w).
  now rewrite Hl.
Qed.

Lemma run_WindowResizes (widths : list JS.Width) (width : JS.Width) (w : World) :
  resizeListener w = true ->
  run w (map WindowResize (widths ++ [width])) =
    Normal (set_debouncePending true (set_containerWidth width w)).
Proof.
  revert w. induction widths as [|x widths IH]; intros w Hl.
  - cbn [app map run]. rewrite step_WindowResize by trivial. reflexivity.
  - cbn [app map run]. rewrite step_WindowResize by trivial. cbn [bind].
    rewrite IH by exact Hl. now destruct w.
Qed.

(** X4. A burst of resize events followed by 50 quiet milliseconds is
    handled as the last event alone would be: the container is measured once,
    the size becomes the last width, the parts are regenerated at most once,
    and no debounced call is left. *)
Theorem resize_burst_coalesces
    (w : World) (widths : list JS.Width) (width : JS.Width) :
  Idle w ->
  exists w',
    run w (map WindowResize (widths ++ [width]) ++ [DebounceElapsed]) = Normal w' /\
    run w [WindowResize width; DebounceElapsed] = Normal w' /\
    JS.Object_is (JS.num (JS.parseInt width)) (size w') = true /\
    (hangmanPartsInstance w' <= S (hangmanPartsInstance w))%nat /\
    debouncePending w' = false /\
    step w' DebounceElapsed = Normal w'.
Proof.
  intros Hidle.
  set (w1 := set_debouncePending true (set_containerWidth width w)).
  assert (Hidle1 : Idle w1)
    by now apply Idle_set_debouncePending, Idle_set_containerWidth.
  assert (Hburst : run w (map WindowResize (widths ++ [width])) = Normal w1)
    by (apply run_WindowResizes, Hidle).
  assert (Hone : step w (WindowResize width) = Normal w1)
    by (apply step_WindowResize, Hidle).
  assert (Hfire : exists w',
            step w1 DebounceElapsed = Normal w' /\
            JS.Object_is (JS.num (JS.parseInt width)) (size w') = true /\
            (hangmanPartsInstance w' <= S (hangmanPartsInstance w))%nat /\
            debouncePending w' = false).
  { rewrite step_DebounceElapsed by trivial. cbv zeta.
    change (containerWidth w1) with width.
    change (incorrectGuessCount w1) with (incorrectGuessCount w).
    set (w2 := set_debouncePending false w1).
    destruct (JS.Object_is (JS.num (JS.parseInt width)) (size w1)) eqn:Hsz.
    - exists w2. splits; trivial. cbn. lia.
    - exists (render (incorrectGuessCount w) (JS.num (JS.parseInt width)) w2).
      destruct (render_resized_frame w2 (incorrectGuessCount w) _ Hsz)
        as (_ & Hs & _ & Hi & _ & _ & Hdb & _).
      splits; trivial.
      + rewrite Hs. apply Object_is_refl.
      + rewrite Hi. cbn. lia. }
  destruct Hfire as (w' & Hstep & Hsize & Hinst & Hdb).
  exists w'. splits; trivial.
  - rewrite run_app, Hburst. cbn [bind run]. now rewrite Hstep.
  - cbn [run]. rewrite Hone. cbn [bind]. now rewrite Hstep.
  - cbn [step]. now rewrite Hdb.
Qed.

Lemma resize_burst_coalesces_witness :
  exists w',
    run (mounted350 5)
        (map WindowResize ([JS.px 360; JS.px 380; JS.auto] ++ [JS.px 400]) ++
         [DebounceElapsed]) = Normal w' /\
    run (mounted350 5) [WindowResize 400; DebounceElapsed] = Normal w' /\
    JS.Object_is (JS.num (JS.lit 400)) (size w') = true.
Proof.
  assert (Hidle : Idle (mounted350 5)) by (constructor; vm_compute; reflexivity).
  destruct (resize_burst_coalesces (mounted350 5)
              [JS.px 360; JS.px 380; JS.auto] (JS.px 400) Hidle)
    as (w' & Hburst & Hone & Hsize & _).
  exists w'. exact (conj Hburst (conj Hone Hsize)).
Defined.

(** X5. A resize after which the container has the width that [size]
    already holds causes no render: the surface, the parts and their
    instance, and both refs stay as they are; only the page changes. *)
Theorem resize_to_same_width_draws_nothing (w : World) (width : JS.Width) :
  Idle w ->
  JS.Object_is (JS.num (JS.parseInt width)) (size w) = true ->
  run w [WindowResize width; DebounceElapsed] =
    Normal (set_debouncePending false (set_containerWidth width w)).
Proof.
  intros Hidle Hsz.
  set (w1 := set_debouncePending true (set_containerWidth width w)).
  assert (Hidle1 : Idle w1)
    by now apply Idle_set_debouncePending, Idle_set_containerWidth.
  cbn [run]. rewrite step_WindowResize by apply Hidle. cbn [bind]. fold w1.
  rewrite step_DebounceElapsed by trivial. cbv zeta.
  change (containerWidth w1) with width. change (size w1) with (size w).
  rewrite Hsz. now destruct w.
Qed.

Lemma resize_to_same_width_draws_nothing_witness :
  run (mounted350 7) [WindowResize 350; DebounceElapsed] =
    Normal (set_debouncePending false (set_containerWidth 350 (mounted350 7))).
Proof.
  assert (Hidle : Idle (mounted350 7)) by (constructor; vm_compute; reflexivity).
  assert (Hsz : JS.Object_is (JS.num (JS.parseInt (JS.px 350)))
                             (size (mounted350 7)) = true)
    by (vm_compute; reflexivity).
  exact (resize_to_same_width_draws_nothing (mounted350 7) (JS.px 350) Hidle Hsz).
Defined.

(** ** After unmounting *)

Lemma step_inert (w : World) (e : Event) :
  phase w = Unmounted -> resizeListener w = false -> debouncePending w = false ->
  step w e =
    Normal (match e with
            | WindowResize width => set_containerWidth width w
            | _ => w
            end).
Proof.
  intros Hph Hl Hdb.
  assert (Hm : isMounted w = false) by (unfold isMounted; now rewrite Hph).
  destruct e as [n|n|width| |]; cbn [step].
  - now rewrite Hph.
  - now rewrite Hm.
  - change (resizeListener (set_containerWidth width w)) with (resizeListener w).
    now rewrite Hl.
  - now rewrite Hdb.
  - now rewrite Hm.
Qed.

Lemma run_inert (events : list Event) (w : World) :
  phase w = Unmounted -> resizeListener w = false -> debouncePending w = false ->
  exists width, run w events = Normal (set_containerWidth width w).
Proof.
  revert w. induction events as [|e events IH]; intros w Hph Hl Hdb.
  - exists (containerWidth w). cbn [run]. now destruct w.
  - cbn [run]. rewrite step_inert by trivial. cbn [bind].
    destruct e as [n|n|x| |]; try now apply IH.
    destruct (IH (set_containerWidth x w)) as (width & Hrun); trivial.
    exists width. rewrite Hrun. now destruct w.
Qed.

(** X6. Unmounted while no debounced call is pending, the component is
    inert: whatever events follow, resizes and elapsed timers among them,
    the run completes without an exception and nothing of the component
    changes; only the page's container width may. *)
Theorem unmounted_component_is_inert (w : World) (events : list Event) :
  Idle w -> debouncePending w = false ->
  exists width,
    run w (Unmount :: events) = Normal (set_containerWidth width (unmount w)).
Proof.
  intros Hidle Hdb. cbn [run step]. rewrite (idle_mounted w Hidle). cbn [bind].
  now apply run_inert.
Qed.

Lemma unmounted_component_is_inert_witness :
  exists width,
    run (mounted350 7)
        [Unmount; WindowResize 400; DebounceElapsed; Update 3; Mount 5] =
    Normal (set_containerWidth width (unmount (mounted350 7))).
Proof.
  assert (Hidle : Idle (mounted350 7)) by (constructor; vm_compute; reflexivity).
  assert (Hdb : debouncePending (mounted350 7) = false) by (vm_compute; reflexivity).
  exact (unmounted_component_is_inert (mounted350 7)
           [WindowResize 400; DebounceElapsed; Update 3; Mount 5] Hidle Hdb).
Defined.

(** ** Mounting, and the states a mounted component is in *)

Lemma mount_instance (w0 w : World) (n : Z) :
  phase w0 = NotMounted -> step w0 (Mount n) = Normal w ->
  hangmanPartsInstance w = S (S (hangmanPartsInstance w0)).
Proof.
  intros Hphase Hstep. cbn [step] in Hstep. rewrite Hphase, mount_eq in Hstep.
  injection Hstep as <-.
  set (sz := JS.num (JS.parseInt (containerWidth w0))).
  set (w1 := resetCanvas _).
  assert (Hw1 : hangmanPartsInstance w1 = S (hangmanPartsInstance w0) /\
                size w1 = JS.undefined /\ pendingSize w1 = Some sz)
    by (repeat split).
  clearbody w1. destruct Hw1 as (Hi & Hs & Hpe).
  destruct (drawEffect_frame w1) as (_ & Hs2 & _ & Hi2 & _ & _ & Hpe2 & _).
  set (w2 := drawEffect w1) in *. clearbody w2.
  rewrite Hs in Hs2. rewrite Hi in Hi2. rewrite Hpe in Hpe2.
  unfold flush. rewrite Hpe2. cbn [size incorrectGuessCount set_pendingSize].
  assert (Hsz : JS.Object_is sz (size w2) = false) by now rewrite Hs2.
  rewrite Hsz.
  assert (Hsz' : JS.Object_is sz (size (set_pendingSize None w2)) = false)
    by exact Hsz.
  destruct (render_resized_frame _ (incorrectGuessCount w2) sz Hsz')
    as (_ & _ & _ & -> & _).
  cbn [hangmanPartsInstance set_pendingSize]. now rewrite Hi2.
Qed.

(** X7. Mounted with a guess count [n] that is not negative in a container
    of a given computed width, the component ends with [size] and the canvas
    dimension equal to what [parseInt] reads from that width, the resize
    listener registered and no debounced call pending. The parts have been
    generated twice, for the undefined size and for the measured one, and the
    surface holds the strokes of the first min(n, 10) parts at the measured
    size and nothing else: nothing drawn at the undefined size remains. *)
Theorem mount_measures_then_draws (width : JS.Width) (n : Z) :
  0 <= n ->
  exists w,
    run (page width) [Mount n] = Normal w /\
    isMounted w = true /\
    size w = JS.num (JS.parseInt width) /\
    dimension (canvas w) = JS.num (JS.parseInt width) /\
    resizeListener w = true /\ debouncePending w = false /\
    hangmanPartsInstance w = 2%nat /\
    drawnPartsRef w = n /\
    painted w =
      firstn (Z.to_nat (Z.min n 10)) (partStrokes (JS.num (JS.parseInt width))) /\
    length (painted w) = Z.to_nat (Z.min n 10).
Proof.
  intros Hn.
  destruct (mount_spec (page width) n) as (w & Hstep & Hidle & Hs & Hc & Hp & Hl & Hdb & _);
    [reflexivity|].
  assert (Hpainted : painted w =
            firstn (Z.to_nat (Z.min n 10)) (partStrokes (JS.num (JS.parseInt width)))).
  { rewrite Hp, Hs, slice_firstn, paints_firstn_parts by trivial.
    now rewrite firstn_min_ten. }
  exists w. split; [cbn [run]; now rewrite Hstep|].
  splits; trivial.
  - apply Hidle.
  - now rewrite (idle_canvas w Hidle).
  - now rewrite (mount_instance (page width) w n eq_refl Hstep).
  - now rewrite (idle_drawn w Hidle).
  - rewrite Hpainted, length_firstn.
    change (length (partStrokes (JS.num (JS.parseInt width)))) with 10%nat. lia.
Qed.

Lemma mount_measures_then_draws_witness :
  exists w,
    run (page 350) [Mount 12] = Normal w /\
    size w = JS.num (JS.lit 350) /\
    hangmanPartsInstance w = 2%nat /\
    painted w = partStrokes (JS.num (JS.lit 350)) /\
    length (painted w) = 10%nat.
Proof.
  assert (Hn : 0 <= 12) by lia.
  destruct (mount_measures_then_draws (JS.px 350) 12 Hn)
    as (w & Hrun & _ & Hs & _ & _ & _ & Hi & _ & Hp & Hlen).
  exists w. exact (conj Hrun (conj Hs (conj Hi (conj Hp Hlen)))).
Defined.

Lemma step_size (w w' : World) (e : Event) :
  Idle w -> step w e = Normal w' -> isMounted w' = true ->
  size w' = size w \/ size w' = JS.num (JS.parseInt (containerWidth w)).
Proof.
  intros Hidle Hstep Hm'.
  assert (Hm : isMounted w = true) by apply Hidle.
  destruct e as [n|n|width| |].
  - left. cbn [step] in Hstep. unfold isMounted in Hm.
    destruct (phase w); try discriminate; congruence.
  - left. cbn [step] in Hstep. rewrite Hm in Hstep. injection Hstep as <-.
    now destruct (render_same_size_frame w n) as (_ & -> & _).
  - left. cbn [step] in Hstep. injection Hstep as <-.
    now destruct (resizeListener _).
  - destruct (debouncePending w) eqn:Hdb.
    + rewrite step_DebounceElapsed in Hstep by trivial. cbv zeta in Hstep.
      destruct (JS.Object_is (JS.num (JS.parseInt (containerWidth w))) (size w))
        eqn:Hsz; injection Hstep as <-; [now left|right].
      now destruct (render_resized_frame (set_debouncePending false w)
                      (incorrectGuessCount w) _ Hsz) as (_ & -> & _).
    + left. cbn [step] in Hstep. rewrite Hdb in Hstep. congruence.
  - cbn [step] in Hstep. rewrite Hm in Hstep. injection Hstep as <-.
    discriminate Hm'.
Qed.

Lemma run_size (events : list Event) (w w' : World) :
  Idle w -> (exists width, size w = JS.num (JS.parseInt width)) ->
  run w events = Normal w' -> isMounted w' = true ->
  exists width, size w' = JS.num (JS.parseInt width).
Proof.
  revert w. induction events as [|e events IH]; intros w Hidle Hsized Hrun Hm'.
  - cbn [run] in Hrun. now injection Hrun as <-.
  - apply run_cons in Hrun as (w1 & Hstep & Hrun).
    destruct (step_Idle_phase w w1 e Hidle Hstep) as [Hm1|Hun].
    + apply (IH w1); trivial.
      * now apply (Idle_step w w1 e).
      * destruct (step_size w w1 e Hidle Hstep Hm1) as [-> | ->]; trivial.
        now exists (containerWidth w).
    + apply (run_Unmounted events w1 w') in Hun; trivial.
      unfold isMounted in Hm'. rewrite Hun in Hm'. discriminate.
Qed.

(** X8. Whatever events follow the mount, and whatever guess counts they
    carry, a component that is still mounted has a [size] that is a number
    (what [parseInt] read from some computed width: whole pixels, or [NaN]
    for a width it could not read) and never undefined, parts that are the
    ones generated from that size, a canvas of that dimension, its resize
    listener registered, no state update queued, and both refs equal. *)
Theorem mounted_state_invariant
    (width : JS.Width) (n0 : Z) (events : list Event) (w : World) :
  run (page width) (Mount n0 :: events) = Normal w ->
  isMounted w = true ->
  (exists width', size w = JS.num (JS.parseInt width')) /\
  size w <> JS.undefined /\
  hangmanParts w = getHangmanParts (size w) /\
  dimension (canvas w) = size w /\
  resizeListener w = true /\
  pendingSize w = None /\
  previousIncorrectGuessCountRef w = drawnPartsRef w.
Proof.
  intros Hrun Hm.
  destruct (mount_spec (page width) n0) as (w1 & Hstep & Hidle1 & Hs1 & _);
    [reflexivity|].
  apply run_cons in Hrun as (w1' & Hstep' & Hrun).
  rewrite Hstep in Hstep'. injection Hstep' as <-.
  destruct (run_Idle events w1 w Hidle1 Hrun Hm) as (Hidle & _).
  assert (Hsized : exists width', size w = JS.num (JS.parseInt width')).
  { apply (run_size events w1 w); trivial.
    exists (containerWidth (page width)). exact Hs1. }
  splits; try apply Hidle; trivial.
  - destruct Hsized as (width' & ->). discriminate.
  - now rewrite (idle_previous w Hidle), (idle_drawn w Hidle).
Qed.

Lemma mounted_state_invariant_witness :
  let w := worldOf (run (page 350)
             [Mount 3; Update (-4); WindowResize JS.auto; Update 12;
              DebounceElapsed]) in
  (exists width', size w = JS.num (JS.parseInt width')) /\
  size w <> JS.undefined /\
  hangmanParts w = getHangmanParts (size w) /\
  dimension (canvas w) = size w /\
  resizeListener w = true /\
  pendingSize w = None /\
  previousIncorrectGuessCountRef w = drawnPartsRef w.
Proof.
  intros w.
  assert (Hrun : run (page 350)
            [Mount 3; Update (-4); WindowResize JS.auto; Update 12;
             DebounceElapsed]
          = Normal w) by (vm_compute; reflexivity).
  assert (Hm : isMounted w = true) by (vm_compute; reflexivity).
  exact (mounted_state_invariant (JS.px 350) 3 _ w Hrun Hm).
Defined.

Lemma run_page_Shown
    (width : JS.Width) (n0 : Z) (events : list Event) (w : World) :
  0 <= n0 -> Forall nonNegativeCount events ->
  run (page width) (Mount n0 :: events) = Normal w -> isMounted w = true ->
  Idle w /\ Shown w.
Proof.
  intros Hn0 Hnn Hrun Hm.
  destruct (mount_page_Shown width n0 Hn0)
    as (w1 & Hrun1 & Hidle1 & Hshown1 & _ & _ & Hc1).
  apply run_cons in Hrun as (w1' & Hstep & Hrun).
  cbn [run] in Hrun1. rewrite Hstep in Hrun1. cbn [bind] in Hrun1.
  injection Hrun1 as ->.
  split.
  - now apply (run_Idle events w1 w).
  - apply (run_Shown events w1 w); trivial. lia.
Qed.

(** X9. With guess counts that are never negative, what the surface shows
    depends on the current size and guess count only, not on how the
    component got there: two histories that end with the same size and the
    same guess count end with the same strokes. *)
Theorem surface_depends_on_size_and_count
    (width1 width2 : JS.Width) (n1 n2 : Z) (events1 events2 : list Event)
    (w1 w2 : World) :
  0 <= n1 -> Forall nonNegativeCount events1 ->
  0 <= n2 -> Forall nonNegativeCount events2 ->
  run (page width1) (Mount n1 :: events1) = Normal w1 -> isMounted w1 = true ->
  run (page width2) (Mount n2 :: events2) = Normal w2 -> isMounted w2 = true ->
  size w1 = size w2 -> incorrectGuessCount w1 = incorrectGuessCount w2 ->
  painted w1 = painted w2.
Proof.
  intros Hn1 Hnn1 Hn2 Hnn2 Hrun1 Hm1 Hrun2 Hm2 Hsize Hcount.
  destruct (run_page_Shown width1 n1 events1 w1) as (Hidle1 & Hshown1); trivial.
  destruct (run_page_Shown width2 n2 events2 w2) as (Hidle2 & Hshown2); trivial.
  unfold Shown in Hshown1, Hshown2.
  rewrite Hshown1, Hshown2, (idle_parts w1 Hidle1), (idle_parts w2 Hidle2).
  now rewrite Hsize, Hcount.
Qed.

Lemma surface_depends_on_size_and_count_witness :
  painted (worldOf (run (page 300)
             [Mount 9; Update 2; WindowResize 350; DebounceElapsed; Update 7])) =
  painted (worldOf (run (page 350) [Mount 7])).
Proof.
  set (events1 := [Update 2; WindowResize 350; DebounceElapsed; Update 7]).
  set (w1 := worldOf (run (page 300) (Mount 9 :: events1))).
  set (w2 := worldOf (run (page 350) [Mount 7])).
  assert (Hn1 : 0 <= 9) by lia.
  assert (Hn2 : 0 <= 7) by lia.
  assert (Hnn1 : Forall nonNegativeCount events1)
    by (repeat constructor; cbn; lia).
  assert (Hnn2 : Forall nonNegativeCount []) by constructor.
  assert (Hrun1 : run (page 300) (Mount 9 :: events1) = Normal w1)
    by (vm_compute; reflexivity).
  assert (Hrun2 : run (page 350) [Mount 7] = Normal w2)
    by (vm_compute; reflexivity).
  assert (Hm1 : isMounted w1 = true) by (vm_compute; reflexivity).
  assert (Hm2 : isMounted w2 = true) by (vm_compute; reflexivity).
  assert (Hsize : size w1 = size w2) by (vm_compute; reflexivity).
  assert (Hcount : incorrectGuessCount w1 = incorrectGuessCount w2)
    by (vm_compute; reflexivity).
  exact (surface_depends_on_size_and_count (JS.px 300) (JS.px 350) 9 7
           events1 [] w1 w2
           Hn1 Hnn1 Hn2 Hnn2 Hrun1 Hm1 Hrun2 Hm2 Hsize Hcount).
Defined.

(** ** [draw] *)

(** X10. Run through [draw], any parts of the sequence, in any order and on
    any context, add one stroke each, and the strokes do not depend on the
    line width or the path the context was left with. Without [draw] they
    would: called directly after the platform, the rope is stroked 10 wide;
    through [draw] it is stroked 2 wide. *)
Theorem draw_isolates_parts
    (s : JS.value) (fs : list DrawingOperation) (c : Context) :
  incl fs (getHangmanParts s) ->
  surface (fold_left draw fs c) = surface c ++ paints fs /\
  length (paints fs) = length fs /\
  map strokeWidth (surface (rope s (platform s blank))) = [10; 10] /\
  map strokeWidth (surface (fold_left draw [platform s; rope s] blank)) = [10; 2].
Proof.
  intros Hfs. splits.
  - now apply (fold_draw_surface s).
  - now apply (paints_length s).
  - reflexivity.
  - reflexivity.
Qed.

Lemma draw_isolates_parts_witness :
  let s := JS.num (JS.lit 350) in
  surface (fold_left draw [rope s; head s] (platform s blank)) =
    surface (platform s blank) ++ paints [rope s; head s].
Proof.
  intros s.
  assert (Hfs : incl [rope s; head s] (getHangmanParts s)).
  { intros f [<-|[<-|[]]]; cbn; tauto. }
  exact (proj1 (draw_isolates_parts s [rope s; head s] (platform s blank) Hfs)).
Defined.

(** ** The cycling story *)

Lemma enumerate_index (i : Z) :
  0 <= i <= 10 ->
  i = 0 \/ i = 1 \/ i = 2 \/ i = 3 \/ i = 4 \/ i = 5 \/ i = 6 \/ i = 7 \/
  i = 8 \/ i = 9 \/ i = 10.
Proof. lia. Qed.

Lemma cycleGuessCount_index (i : Z) : 0 <= i <= 10 -> cycleGuessCount i = i.
Proof.
  intros Hi. apply enumerate_index in Hi.
  repeat (destruct Hi as [->|Hi]; [reflexivity|]). now subst.
Qed.

Lemma nextGuessCountIndex_mod (i : Z) :
  0 <= i <= 10 -> nextGuessCountIndex i = (i + 1) mod 11.
Proof.
  intros Hi. apply enumerate_index in Hi.
  repeat (destruct Hi as [->|Hi]; [reflexivity|]). now subst.
Qed.

(** X11. The index of [HangmanCycle] never leaves the array: from an index
    between 0 and 10 the timeout callback moves to the next one and from 10
    back to 0, the guess count passed down is the index itself, and after 11
    timeouts the index is where it was. Outside the array the guess count
    read is undefined, which [Hangman] takes as 0. *)
Theorem cycle_index_wraps (i : Z) :
  0 <= i <= 10 ->
  0 <= nextGuessCountIndex i <= 10 /\
  nextGuessCountIndex i = (i + 1) mod 11 /\
  cycleGuessCount i = i /\
  Nat.iter 11 nextGuessCountIndex i = i /\
  (forall j, j < 0 \/ 10 < j -> cycleGuessCount j = 0).
Proof.
  intros Hi.
  assert (Hnext : nextGuessCountIndex i = (i + 1) mod 11)
    by now apply nextGuessCountIndex_mod.
  splits.
  - rewrite Hnext. pose proof (Z.mod_pos_bound (i + 1) 11). lia.
  - rewrite Hnext. pose proof (Z.mod_pos_bound (i + 1) 11). lia.
  - exact Hnext.
  - now apply cycleGuessCount_index.
  - apply enumerate_index in Hi.
    repeat (destruct Hi as [->|Hi]; [reflexivity|]). now subst.
  - intros j [Hj|Hj]; unfold cycleGuessCount, arrayGet.
    + destruct (Z.ltb_spec j 0); [reflexivity|lia].
    + destruct (Z.ltb_spec j 0); [reflexivity|].
      replace (nth_error guessCounts (Z.to_nat j)) with (@None Z); [reflexivity|].
      symmetry. apply nth_error_None.
      change (length guessCounts) with 11%nat. lia.
Qed.

Lemma cycle_index_wraps_witness :
  nextGuessCountIndex 10 = (10 + 1) mod 11 /\ cycleGuessCount 10 = 10.
Proof.
  assert (Hi : 0 <= 10 <= 10) by lia.
  destruct (cycle_index_wraps 10 Hi) as (_ & Hnext & Hcount & _).
  exact (conj Hnext Hcount).
Defined.

Lemma ticks_invariant (k : nat) (c : Cycle) (i : Z) :
  currentGuessCountIndex c = i -> 0 <= i <= 10 ->
  Idle (hangman c) -> Shown (hangman c) ->
  incorrectGuessCount (hangman c) = i ->
  exists c',
    ticks k c = Normal c' /\
    currentGuessCountIndex c' = (i + Z.of_nat k) mod 11 /\
    Idle (hangman c') /\ Shown (hangman c') /\
    incorrectGuessCount (hangman c') = currentGuessCountIndex c' /\
    size (hangman c') = size (hangman c) /\
    hangmanParts (hangman c') = hangmanParts (hangman c) /\
    hangmanPartsInstance (hangman c') = hangmanPartsInstance (hangman c).
Proof.
  revert c i. induction k as [|k IH]; intros c i Hc Hi Hidle Hshown Hcount.
  - exists c. splits; trivial.
    + rewrite Z.add_0_r, Z.mod_small; trivial. lia.
    + congruence.
  - set (i1 := nextGuessCountIndex i).
    assert (Hi1 : i1 = (i + 1) mod 11) by now apply nextGuessCountIndex_mod.
    assert (Hrange : 0 <= i1 <= 10)
      by (rewrite Hi1; pose proof (Z.mod_pos_bound (i + 1) 11); lia).
    assert (Hcount1 : cycleGuessCount i1 = i1) by now apply cycleGuessCount_index.
    destruct (step_Update (hangman c) i1)
      as (w1 & Hstep & Hidle1 & Hshown1 & Hs1 & Hp1 & Hinst1 & Hc1); trivial;
      [lia..|].
    destruct (IH (mkCycle i1 w1) i1)
      as (c' & Hticks & Hindex & Hidle' & Hshown' & Hcount' & Hs' & Hp' & Hinst');
      trivial.
    exists c'. splits; trivial.
    + cbn [ticks]. unfold tick. rewrite Hc. fold i1. rewrite Hcount1, Hstep.
      exact Hticks.
    + rewrite Hindex, Hi1, Zplus_mod_idemp_l. f_equal. lia.
    + now rewrite Hs'.
    + now rewrite Hp'.
    + now rewrite Hinst'.
Qed.

(** X12. In the story [HangmanCycle], after any number [k] of timeouts the
    index is [k] modulo 11 and the [Hangman], in its container of 350 pixels,
    shows exactly the first [k] modulo 11 parts, that is their strokes at size
    350 and nothing else: one more part with every timeout, and a blank
    surface again after the eleventh. The parts are never regenerated while
    the cycle runs. *)
Theorem cycle_shows_index_parts (k : nat) :
  exists c0 c,
    mountCycle = Normal c0 /\ ticks k c0 = Normal c /\
    currentGuessCountIndex c = Z.of_nat k mod 11 /\
    incorrectGuessCount (hangman c) = Z.of_nat k mod 11 /\
    painted (hangman c) =
      firstn (Z.to_nat (Z.of_nat k mod 11)) (partStrokes (JS.num (JS.lit 350))) /\
    length (painted (hangman c)) = Z.to_nat (Z.of_nat k mod 11) /\
    hangmanPartsInstance (hangman c) = 2%nat.
Proof.
  destruct (mount_spec (page 350) 0) as (w0 & Hstep & Hidle0 & Hs0 & Hc0 & Hp0 & _);
    [reflexivity|].
  assert (Hinst0 : hangmanPartsInstance w0 = 2%nat)
    by now rewrite (mount_instance (page 350) w0 0 eq_refl Hstep).
  assert (Hshown0 : Shown w0).
  { unfold Shown. rewrite Hp0, (idle_parts w0 Hidle0), Hc0.
    now rewrite slice_firstn. }
  destruct (ticks_invariant k (mkCycle 0 w0) 0)
    as (c & Hticks & Hindex & Hidle & Hshown & Hcount & Hs & Hp & Hinst);
    trivial; [lia|].
  exists (mkCycle 0 w0), c.
  cbn [hangman] in Hs, Hp, Hinst. rewrite Z.add_0_l in Hindex.
  assert (Hpainted : painted (hangman c) =
            firstn (Z.to_nat (Z.of_nat k mod 11)) (partStrokes (JS.num (JS.lit 350)))).
  { unfold Shown in Hshown. rewrite Hshown, Hcount, Hindex, Hp.
    rewrite (idle_parts w0 Hidle0), Hs0. apply paints_firstn_parts. }
  splits; trivial.
  - unfold mountCycle. change (cycleGuessCount 0) with 0. now rewrite Hstep.
  - now rewrite Hcount.
  - rewrite Hpainted, length_firstn.
    change (length (partStrokes (JS.num (JS.lit 350)))) with 10%nat.
    pose proof (Z.mod_pos_bound (Z.of_nat k) 11). lia.
  - now rewrite Hinst.
Qed.
